(** * WHODataManager: the dataset store and its attribute filter

    A shallow embedding of [PythonExercises/VisualizeWHOData/VisualizeWHOData.py]:
    the class [WHODataManager] (construction, cache file, download, filtering)
    over an explicit Python object store, file system and network log.

    Python objects that have identity (lists, dicts, class instances) live in
    a heap and are referred to by location; scalars are carried by value.
    Every method is a function in a state-and-exception monad over the world,
    so that a raised exception, an allocated list or a written file is part
    of what a theorem can talk about. *)

From Stdlib Require Import ZArith Ascii Floats.SpecFloat.
From stdpp Require Import gmap strings list fin_maps pretty.

Open Scope string_scope.

(** ** Python values and the object store *)

Definition loc := positive.

(** A [pathlib.Path] (POSIX flavour): whether it is anchored at the root, and
    its components. *)
Record path := MkPath { anchored : bool; parts : list string }.

Global Instance path_eq_dec : EqDecision path.
Proof. solve_decision. Defined.

Global Instance path_countable : Countable path.
Proof.
  apply (inj_countable' (λ p, (anchored p, parts p)) (λ q, MkPath q.1 q.2)).
  by intros [].
Defined.

(** Values: the immutable ones by value, the others by reference. [VInt] and
    [VFloat] are what [json.load] makes of a JSON number. *)
Inductive value :=
  | VNone
  | VBool (b : bool)
  | VInt (n : Z)
  | VFloat (f : spec_float)
  | VStr (s : string)
  | VRef (l : loc).

(** The attributes [__init__] assigns, with the types its annotations and
    right-hand sides give them. [_data] is [None] here until the assignment
    [self._data = ...] has run (the attribute does not exist before). *)
Record Manager := MkManager {
  data_dir : path;
  filename : string;
  filepath : path;
  url : string;
  _data : option value
}.

Inductive object :=
  | OList (items : list value)
  | ODict (d : gmap string value)
  | OInstance (m : Manager).

(** ** Exceptions *)

Inductive exn :=
  | ValueError (msg : string)
  | TypeError
  | AttributeError
  | KeyError (key : string)
  | JSONDecodeError
  | HTTPError (status : Z)
  | ConnectionError
  | ReadTimeout
  | FileNotFoundError
  | FileExistsError
  | NotADirectoryError
  | IsADirectoryError
  | OSError
  (** [Exception(f"{prefix}{str(cause)}")], as raised by a handler that wraps
      the exception it caught. *)
  | Exception (prefix : string) (cause : exn)
  (** Not a Python exception: the store has no object at a location that a
      value refers to. No run of the program gets there. *)
  | DanglingRef.

Inductive result (A : Type) :=
  | Ok (a : A)
  | Raise (e : exn).
Arguments Ok {A} a.
Arguments Raise {A} e.

(** ** The world *)

Inductive node :=
  | File (content : list Byte.byte)
  | Dir.

(** What the remote end answers to a GET. *)
Inductive reply :=
  | Unreachable
  | TimedOut
  | Response (status_code : Z) (content : list Byte.byte).

Record World := MkWorld {
  heap : gmap loc object;
  fs : gmap path node;
  (** the URLs that were fetched, oldest first *)
  gets : list string;
  (** the lines printed, oldest first *)
  stdout : list string
}.

Definition set_heap (h : gmap loc object) (w : World) : World :=
  MkWorld h (fs w) (gets w) (stdout w).
Definition set_fs (f : gmap path node) (w : World) : World :=
  MkWorld (heap w) f (gets w) (stdout w).
Definition log_get (u : string) (w : World) : World :=
  MkWorld (heap w) (fs w) (gets w ++ [u]) (stdout w).
Definition log_print (s : string) (w : World) : World :=
  MkWorld (heap w) (fs w) (gets w) (stdout w ++ [s]).

(** ** The monad of methods

    A computation takes the world and gives back a result or an exception,
    and the world as it left it: an exception does not undo what was done
    before it. *)

Definition M (A : Type) : Type := World → result A * World.

Global Instance M_ret : MRet M := λ A a w, (Ok a, w).
Global Instance M_bind : MBind M := λ A B f m w,
  match m w with
  | (Ok a, w') => f a w'
  | (Raise e, w') => (Raise e, w')
  end.

Definition raise {A} (e : exn) : M A := λ w, (Raise e, w).

(** [try: body except Exception as e: handler e] *)
Definition try_except {A} (body : M A) (handler : exn → M A) : M A := λ w,
  match body w with
  | (Ok a, w') => (Ok a, w')
  | (Raise e, w') => handler e w'
  end.

Definition lift {A} (f : gmap loc object → result A) : M A := λ w,
  (f (heap w), w).

Definition print (s : string) : M unit := λ w, (Ok tt, log_print s w).

(** Allocation of a new object, at a location the store does not use. *)
Definition alloc (o : object) : M loc := λ w,
  let l := fresh (dom (heap w)) in
  (Ok l, set_heap (<[l := o]> (heap w)) w).

(** ** Python operations on values *)

Section Operations.
Context (h : gmap loc object).

Definition deref (l : loc) : result object :=
  match h !! l with
  | Some o => Ok o
  | None => Raise DanglingRef
  end.

Definition float_is_zero (f : spec_float) : bool :=
  match f with
  | S754_zero _ => true
  | _ => false
  end.

(** [bool(v)] *)
Definition truthy (v : value) : result bool :=
  match v with
  | VNone => Ok false
  | VBool b => Ok b
  | VInt n => Ok (negb (Z.eqb n 0))
  | VFloat f => Ok (negb (float_is_zero f))
  | VStr s => Ok (negb (String.eqb s ""))
  | VRef l =>
      match deref l with
      | Ok (OList items) => Ok (negb (bool_decide (items = [])))
      | Ok (ODict d) => Ok (negb (bool_decide (d = ∅)))
      | Ok (OInstance _) => Ok true
      | Raise e => Raise e
      end
  end.

(** [v == s] for a [str] [s]: only an equal string is equal to it. *)
Definition eq_str (v : value) (s : string) : bool :=
  match v with
  | VStr s' => String.eqb s' s
  | _ => false
  end.

(** [s in v] for a [str] [s]: a key of a dict, an element of a list, a
    substring of a string; anything else is not a container. *)
Definition contains (s : string) (v : value) : result bool :=
  match v with
  | VStr s' => Ok (bool_decide (is_Some (String.index 0 s s')))
  | VRef l =>
      match deref l with
      | Ok (OList items) => Ok (existsb (λ x, eq_str x s) items)
      | Ok (ODict d) => Ok (bool_decide (is_Some (d !! s)))
      | Ok (OInstance _) => Raise TypeError
      | Raise e => Raise e
      end
  | _ => Raise TypeError
  end.

(** [v[s]] for a [str] [s] *)
Definition getitem (v : value) (s : string) : result value :=
  match v with
  | VRef l =>
      match deref l with
      | Ok (ODict d) =>
          match d !! s with
          | Some x => Ok x
          | None => Raise (KeyError s)
          end
      | Ok _ => Raise TypeError
      | Raise e => Raise e
      end
  | _ => Raise TypeError
  end.

(** [v.get(s)]: only a dict has the method; a missing key gives [None]. *)
Definition get (v : value) (s : string) : result value :=
  match v with
  | VRef l =>
      match deref l with
      | Ok (ODict d) => Ok (default VNone (d !! s))
      | Ok _ => Raise AttributeError
      | Raise e => Raise e
      end
  | _ => Raise AttributeError
  end.

Fixpoint chars (s : string) : list value :=
  match s with
  | EmptyString => []
  | String c s' => VStr (String c EmptyString) :: chars s'
  end.

(** The elements [for e in v] goes through. A dict gives its keys (the
    store keeps no insertion order for them; the only loop over such keys
    here stops at the first one, whichever it is). *)
Definition iter (v : value) : result (list value) :=
  match v with
  | VStr s => Ok (chars s)
  | VRef l =>
      match deref l with
      | Ok (OList items) => Ok items
      | Ok (ODict d) => Ok (VStr <$> (map_to_list d).*1)
      | Ok (OInstance _) => Raise TypeError
      | Raise e => Raise e
      end
  | _ => Raise TypeError
  end.

(** [len(v)]. (For a [str] this counts the characters as the model has
    them, one per byte; the theorems below take the length of lists
    only.) *)
Definition len (v : value) : result nat :=
  match v with
  | VStr s => Ok (String.length s)
  | VRef l =>
      match deref l with
      | Ok (OList items) => Ok (length items)
      | Ok (ODict d) => Ok (size d)
      | Ok (OInstance _) => Raise TypeError
      | Raise e => Raise e
      end
  | _ => Raise TypeError
  end.

(** The condition of [[e for e in items if e.get(key) == s]], element by
    element, up to the first exception. *)
Fixpoint select (key s : string) (items : list value) : result (list value) :=
  match items with
  | [] => Ok []
  | e :: rest =>
      match get e key with
      | Raise x => Raise x
      | Ok v =>
          match select key s rest with
          | Raise x => Raise x
          | Ok kept => Ok (if eq_str v s then e :: kept else kept)
          end
      end
  end.

(** [self.<attribute>] *)
Definition instance (self : loc) : result Manager :=
  match deref self with
  | Ok (OInstance m) => Ok m
  | Ok _ => Raise AttributeError
  | Raise e => Raise e
  end.

Definition self_data (self : loc) : result value :=
  match instance self with
  | Ok m =>
      match _data m with
      | Some v => Ok v
      | None => Raise AttributeError
      end
  | Raise e => Raise e
  end.
End Operations.

(** ** [WHODataManager.filter_data] *)

(** [if arg:] for an [Optional[str]] argument *)
Definition given (arg : option string) : bool :=
  match arg with
  | Some s => negb (String.eqb s "")
  | None => false
  end.

(** [[e for e in entries if e.get(key) == s]]: a new list *)
Definition comprehension (key s : string) (entries : value) : M value :=
  items ← lift (λ h, iter h entries);
  kept ← lift (λ h, select h key s items);
  l ← alloc (OList kept);
  mret (VRef l).

(** One narrowing pass: [if arg: entries = [e for e in entries if ...]] *)
Definition narrow (key : string) (arg : option string) (entries : value) : M value :=
  if given arg then comprehension key (default "" arg) entries else mret entries.

Definition no_data_msg : string := "No data loaded or JSON missing 'value' key".

Definition filter_data (self : loc)
    (spatial_dim time_dimension_value dim1 : option string) : M value :=
  data ← lift (λ h, self_data h self);
  loaded ← lift (λ h, truthy h data);
  has_value ← (if loaded then lift (λ h, contains h "value" data) else mret false);
  if negb loaded || negb has_value then raise (ValueError no_data_msg) else
  filtered_entries ← lift (λ h, getitem h data "value");
  filtered_entries ← narrow "SpatialDim" spatial_dim filtered_entries;
  filtered_entries ← narrow "TimeDimensionValue" time_dimension_value filtered_entries;
  filtered_entries ← narrow "Dim1" dim1 filtered_entries;
  mret filtered_entries.

(** A call with keyword arguments, as [get_filtered_data] and the script
    make it: a parameter that is not passed takes its default, [None]; a
    keyword the method does not have is a [TypeError]. *)
Definition filter_params : list string :=
  ["spatial_dim"; "time_dimension_value"; "dim1"].

Definition param (kw : gmap string (option string)) (name : string) : option string :=
  default None (kw !! name).

Definition call_filter_data (self : loc) (kw : gmap string (option string)) : M value :=
  if bool_decide (dom kw ⊆ list_to_set filter_params) then
    filter_data self (param kw "spatial_dim") (param kw "time_dimension_value")
      (param kw "dim1")
  else raise TypeError.

(** ** [WHODataManager.get_filtered_data] *)

(** [len(v.get(s, []))]. The default [[]] is a temporary that nothing refers
    to once [len] has returned; it is not entered in the store. *)
Definition len_get (h : gmap loc object) (v : value) (s : string) : result nat :=
  match v with
  | VRef l =>
      match deref h l with
      | Ok (ODict d) =>
          match d !! s with
          | Some x => len h x
          | None => Ok 0
          end
      | Ok _ => Raise AttributeError
      | Raise e => Raise e
      end
  | _ => Raise AttributeError
  end.

Definition get_filtered_data (self : loc)
    (spatial_dim time_dimension_value dim1 : option string) : M value :=
  filtered_data ← filter_data self spatial_dim time_dimension_value dim1;
  data ← lift (λ h, self_data h self);
  total_count ← lift (λ h, len_get h data "value");
  matched ← lift (λ h, len h filtered_data);
  print ("Filtered " ++ pretty matched ++ " entries from " ++ pretty total_count
         ++ " total entries.");;
  mret filtered_data.

(** ** Paths *)

(** The components of a path string, split at each slash. *)
Fixpoint components (s cur : string) : list string :=
  match s with
  | EmptyString => [cur]
  | String c s' =>
      if Ascii.eqb c "/"%char then cur :: components s' ""
      else components s' (cur ++ String c EmptyString)
  end.

(** [Path(s)]: empty and [.] components are dropped. (A path that starts
    with exactly two slashes, which POSIX keeps apart, is not told from one
    that starts with one.) *)
Definition Path (s : string) : path :=
  MkPath (match s with String c _ => Ascii.eqb c "/"%char | EmptyString => false end)
         (filter (λ c, c ≠ "" ∧ c ≠ ".") (components s "")).

(** [p / s] *)
Definition joinpath (p : path) (s : string) : path :=
  let q := Path s in
  if anchored q then q else MkPath (anchored p) (parts p ++ parts q).

(** [str(p)] *)
Definition str_path (p : path) : string :=
  match anchored p, parts p with
  | false, [] => "."
  | false, ps => String.concat "/" ps
  | true, ps => "/" ++ String.concat "/" ps
  end.

(** The path itself and the directories above it, outermost first. *)
Definition chain (p : path) : list path :=
  (λ k, MkPath (anchored p) (take k (parts p))) <$> seq 1 (length (parts p)).

Definition parent (p : path) : path :=
  MkPath (anchored p) (removelast (parts p)).

(** ** The environment: network, storage device, JSON parser *)

Record Env := MkEnv {
  (** what a GET of a URL is answered with, redirects followed *)
  remote : string → reply;
  (** the number of bytes the storage device takes before a write fails;
      [None] when it takes them all *)
  write_limit : option nat;
  (** [json.load] on the bytes of a file: the value it builds, in the store
      extended with the objects of that value, or [None] when the text is not
      JSON (or not UTF-8) *)
  json_load : list Byte.byte → gmap loc object → option (value * gmap loc object)
}.

Definition source_url : string := "https://ghoapi.azureedge.net/api/WHOSIS_000001".

Section Store.
Context (E : Env).

(** [requests.get(url, timeout=30)]: one GET, logged *)
Definition requests_get (u : string) : M (Z * list Byte.byte) := λ w,
  let w' := log_get u w in
  match remote E u with
  | Unreachable => (Raise ConnectionError, w')
  | TimedOut => (Raise ReadTimeout, w')
  | Response st body => (Ok (st, body), w')
  end.

(** [response.raise_for_status()]: [HTTPError] for a 4xx or 5xx status,
    nothing for any other *)
Definition raise_for_status (st : Z) : M unit :=
  if bool_decide (400 ≤ st < 600)%Z then raise (HTTPError st) else mret tt.

(** [p.exists()] *)
Definition path_exists (p : path) : M bool := λ w,
  (Ok (bool_decide (is_Some (fs w !! p))), w).

(** [p.mkdir(parents=True, exist_ok=True)]: every missing directory of the
    chain is made; a regular file in the chain is an error, and then
    nothing is made. The chain is taken component by component, as the path
    is written: this is the call on a path with no [..] component, whose
    components the file system takes as names. *)
Fixpoint mkdirs (ps : list path) (f : gmap path node) : result (gmap path node) :=
  match ps with
  | [] => Ok f
  | p :: rest =>
      match f !! p with
      | Some (File _) =>
          Raise (match rest with [] => FileExistsError | _ => NotADirectoryError end)
      | _ => mkdirs rest (<[p := Dir]> f)
      end
  end.

Definition mkdir_parents (p : path) : M unit := λ w,
  match mkdirs (chain p) (fs w) with
  | Ok f => (Ok tt, set_fs f w)
  | Raise e => (Raise e, w)
  end.

Definition ensure_data_directory (self : loc) : M unit :=
  m ← lift (λ h, instance h self);
  mkdir_parents (data_dir m).

(** A directory is there: the current directory and the root always are. *)
Definition is_dir (f : gmap path node) (p : path) : bool :=
  match parts p, f !! p with
  | [], _ => true
  | _, Some Dir => true
  | _, _ => false
  end.

(** [with open(p, 'wb') as f: f.write(body)]: the file is created or
    emptied when it is opened, and holds what the device took when the
    write fails. The path is looked up as it is written: this is the call
    on a path with no [..] component (to the real call a path that ends in
    [..] is a directory). *)
Definition write_bytes (p : path) (body : list Byte.byte) : M unit := λ w,
  match fs w !! p with
  | Some Dir => (Raise IsADirectoryError, w)
  | _ =>
      if is_dir (fs w) (parent p) then
        match write_limit E with
        | Some k =>
            if bool_decide (k < length body) then
              (Raise OSError, set_fs (<[p := File (take k body)]> (fs w)) w)
            else (Ok tt, set_fs (<[p := File body]> (fs w)) w)
        | None => (Ok tt, set_fs (<[p := File body]> (fs w)) w)
        end
      else
        (Raise (match fs w !! parent p with
                | Some (File _) => NotADirectoryError
                | _ => FileNotFoundError
                end), w)
  end.

Definition download_failed : string := "Failed to download data: ".

Definition download_data (self : loc) : M unit :=
  m ← lift (λ h, instance h self);
  print ("Downloading data from " ++ url m ++ "...");;
  try_except
    (response ← requests_get (url m);
     raise_for_status response.1;;
     ensure_data_directory self;;
     write_bytes (filepath m) response.2;;
     print ("Data successfully downloaded to " ++ str_path (filepath m)))
    (λ e, raise (Exception download_failed e)).

(** [with open(p, 'r', encoding='utf-8') as f: return json.load(f)]. One
    exception, [JSONDecodeError], stands for every way in which the text of
    a file fails to load (bytes that are not UTF-8 raise
    [UnicodeDecodeError] in Python, a [ValueError] as well). *)
Definition load_json (p : path) : M value := λ w,
  match fs w !! p with
  | None => (Raise FileNotFoundError, w)
  | Some Dir => (Raise IsADirectoryError, w)
  | Some (File c) =>
      match json_load E c (heap w) with
      | Some (v, h') => (Ok v, set_heap h' w)
      | None => (Raise JSONDecodeError, w)
      end
  end.

Definition _initialize_data (self : loc) : M value :=
  m ← lift (λ h, instance h self);
  found ← path_exists (filepath m);
  (if negb found then
     print ("File " ++ str_path (filepath m) ++ " not found.");;
     download_data self
   else
     print ("File " ++ str_path (filepath m) ++ " found, loading existing data."));;
  load_json (filepath m).

(** The attributes of a new instance, before [_data] is assigned. *)
Definition new_manager (data_dir filename : string) : Manager :=
  let dir := Path data_dir in
  MkManager dir filename (joinpath dir filename) source_url None.

(** [self._data = v] *)
Definition set_data (self : loc) (v : value) : M unit := λ w,
  match instance (heap w) self with
  | Ok m =>
      let m' := MkManager (data_dir m) (filename m) (filepath m) (url m) (Some v) in
      (Ok tt, set_heap (<[self := OInstance m']> (heap w)) w)
  | Raise e => (Raise e, w)
  end.

(** The call [WHODataManager(data_dir, filename)]: the new instance and the
    run of [__init__] on it. The first four attributes are assigned before
    anything can fail, so the instance enters the store with them. *)
Definition __init__ (data_dir filename : string) : M loc :=
  print "Constructor execution started.";;
  self ← alloc (OInstance (new_manager data_dir filename));
  data ← _initialize_data self;
  set_data self data;;
  print "Constructor execution finished.";;
  mret self.
End Store.

(** ** What the claims are stated with *)

(** The loaded dataset of the manager at [self]: [_data] refers to a dict
    whose ['value'] entry refers to a list; the location of that list and its
    elements, in order. *)
Definition dataset (h : gmap loc object) (self : loc) : option (loc * list value) :=
  match self_data h self with
  | Ok (VRef ld) =>
      match h !! ld with
      | Some (ODict d) =>
          match d !! "value" with
          | Some (VRef lv) =>
              match h !! lv with
              | Some (OList items) => Some (lv, items)
              | _ => None
              end
          | _ => None
          end
      | _ => None
      end
  | _ => None
  end.

(** A record: a reference to a dict. *)
Definition is_record (h : gmap loc object) (e : value) : bool :=
  match e with
  | VRef l =>
      match h !! l with
      | Some (ODict _) => true
      | _ => false
      end
  | _ => false
  end.

(** The record has no entry for the attribute. *)
Definition lacks (h : gmap loc object) (e : value) (key : string) : bool :=
  match e with
  | VRef l =>
      match h !! l with
      | Some (ODict d) => bool_decide (d !! key = None)
      | _ => false
      end
  | _ => false
  end.

(** [e.get(key) == s] holds. *)
Definition matchb (h : gmap loc object) (key s : string) (e : value) : bool :=
  match get h e key with
  | Ok v => eq_str v s
  | Raise _ => false
  end.

(** The three attributes a query can constrain, with the argument of each. *)
Inductive attribute := SpatialDim | TimeDimensionValue | Dim1.

Definition attr_name (a : attribute) : string :=
  match a with
  | SpatialDim => "SpatialDim"
  | TimeDimensionValue => "TimeDimensionValue"
  | Dim1 => "Dim1"
  end.

Definition argument (a : attribute) (s t d : option string) : option string :=
  match a with
  | SpatialDim => s
  | TimeDimensionValue => t
  | Dim1 => d
  end.

(** The record passes the pass for one attribute: the argument is not given,
    or the record's value is equal to it. *)
Definition pass (h : gmap loc object) (key : string) (arg : option string)
    (e : value) : bool :=
  if given arg then matchb h key (default "" arg) e else true.

(** The records that pass the three passes, in the order of the code. *)
Definition selected (h : gmap loc object) (s t d : option string)
    (items : list value) : list value :=
  filter (λ e, pass h "Dim1" d e)
    (filter (λ e, pass h "TimeDimensionValue" t e)
       (filter (λ e, pass h "SpatialDim" s e) items)).

(** One query of a caller, through either method. *)
Inductive query :=
  | Filter (s t d : option string)
  | GetFiltered (s t d : option string).

(** The world after a caller has made the queries one after the other,
    going on to the next one whether a query returned or raised. *)
Fixpoint serve (self : loc) (qs : list query) (w : World) : World :=
  match qs with
  | [] => w
  | Filter s t d :: rest => serve self rest (filter_data self s t d w).2
  | GetFiltered s t d :: rest => serve self rest (get_filtered_data self s t d w).2
  end.

(** What [_data] is, when it is what [__init__] can have left there under
    the annotation [Dict[str, Any]]: a dict, given by its entries, or [None]
    (no data). *)
Definition loaded_state (h : gmap loc object) (self : loc)
    : option (option (gmap string value)) :=
  match self_data h self with
  | Ok VNone => Some None
  | Ok (VRef ld) =>
      match h !! ld with
      | Some (ODict dd) => Some (Some dd)
      | _ => None
      end
  | _ => None
  end.

(** ** Sample data *)

Definition bytes (s : string) : list Byte.byte := String.list_byte_of_string s.

(** A parser for the JSON texts [null], [true], [false], [[]] and [{}],
    which takes no other text: the parser of the examples below. *)
Definition literal_json_load (c : list Byte.byte) (h : gmap loc object)
    : option (value * gmap loc object) :=
  let s := String.string_of_list_byte c in
  if String.eqb s "null" then Some (VNone, h)
  else if String.eqb s "true" then Some (VBool true, h)
  else if String.eqb s "false" then Some (VBool false, h)
  else if String.eqb s "[]" then
    Some (VRef (fresh (dom h)), <[fresh (dom h) := OList []]> h)
  else if String.eqb s "{}" then
    Some (VRef (fresh (dom h)), <[fresh (dom h) := ODict ∅]> h)
  else None.

(** A record of the WHO indicator, with some of the attributes of entry
    12932 as the source file lists them. *)
Definition who_record (spatial time dim1 shown : string) : object :=
  ODict (list_to_map
    [("IndicatorCode", VStr "WHOSIS_000001"); ("SpatialDimType", VStr "COUNTRY");
     ("SpatialDim", VStr spatial); ("Dim1Type", VStr "SEX"); ("Dim1", VStr dim1);
     ("Dim2", VNone); ("Value", VStr shown); ("TimeDimensionValue", VStr time)]).

Definition sample_manager : Manager :=
  MkManager (Path "Data") "WHOSIS_000001.json"
    (joinpath (Path "Data") "WHOSIS_000001.json") source_url (Some (VRef 2%positive)).

(** A manager at location 1 whose dataset is the list, at location 3, of
    the records at 4 and 5. *)
Definition world_of (r4 r5 : object) : World :=
  MkWorld
    (list_to_map
       [(1%positive, OInstance sample_manager);
        (2%positive, ODict (list_to_map [("value", VRef 3%positive)]));
        (3%positive, OList [VRef 4%positive; VRef 5%positive]);
        (4%positive, r4); (5%positive, r5)])
    (list_to_map
       [(Path "Data", Dir);
        (joinpath (Path "Data") "WHOSIS_000001.json", File (bytes "{}"))])
    [] [].

(** The scenario of two records, Guyana and the United States in 2001. *)
Definition sample_world : World :=
  world_of (who_record "GUY" "2001" "SEX_BTSX" "64.7 [64.1-65.3]")
           (who_record "USA" "2001" "SEX_BTSX" "78.2 [78.1-78.3]").

(** A dataset in which one record has no [SpatialDim] entry. *)
Definition sparse_world : World :=
  world_of (ODict (list_to_map [("TimeDimensionValue", VStr "2001"); ("Dim1", VStr "SEX_BTSX")]))
           (who_record "USA" "2001" "SEX_BTSX" "78.2 [78.1-78.3]").

(** A dataset in which one record has the empty string as its [SpatialDim]. *)
Definition blank_world : World :=
  world_of (ODict (list_to_map [("SpatialDim", VStr ""); ("Dim1", VStr "A")]))
           (ODict (list_to_map [("SpatialDim", VStr "GUY"); ("Dim1", VStr "B")])).

(** A dataset of one record, whose three attributes are given. *)
Definition single_world (spatial time dim1 : string) : World :=
  MkWorld
    (list_to_map
       [(1%positive, OInstance sample_manager);
        (2%positive, ODict (list_to_map [("value", VRef 3%positive)]));
        (3%positive, OList [VRef 4%positive]);
        (4%positive, ODict (list_to_map
           [("SpatialDim", VStr spatial); ("TimeDimensionValue", VStr time);
            ("Dim1", VStr dim1)]))])
    ∅ [] [].

(** A manager whose [_data] is [None], and one whose [_data] is a dict with
    no ['value'] entry. *)
Definition unloaded_world (data : value) : World :=
  MkWorld
    (list_to_map
       [(1%positive, OInstance (MkManager (Path "Data") "WHOSIS_000001.json"
           (joinpath (Path "Data") "WHOSIS_000001.json") source_url (Some data)));
        (2%positive, ODict (list_to_map [("error", VStr "not found")]))])
    ∅ [] [].

(** Worlds before construction: nothing in the store; no file, or a cache
    file with the given bytes. *)
Definition empty_world : World := MkWorld ∅ ∅ [] [].

Definition cached_world (c : list Byte.byte) : World :=
  MkWorld ∅
    (list_to_map
       [(Path "Data", Dir); (joinpath (Path "Data") "WHOSIS_000001.json", File c)])
    [] [].

(** An environment in which the source answers with the status and body
    given, and the device takes the bytes its limit allows. *)
Definition env_of (status : Z) (body : list Byte.byte) (limit : option nat) : Env :=
  MkEnv (λ _, Response status body) limit literal_json_load.

(** ** Helpers of the statements *)

Definition same_attribute (a b : attribute) : bool :=
  match a, b with
  | SpatialDim, SpatialDim | TimeDimensionValue, TimeDimensionValue | Dim1, Dim1 => true
  | _, _ => false
  end.

(** The field, for attribute [b], of the one record on which a query is
    probed on attribute [a]: on [a] itself the empty string when the query
    constrains [a] and another string when it does not; on the other
    attributes what the query asks for. *)
Definition probe_field (a b : attribute) (s t d : option string) : string :=
  if same_attribute a b then
    if given (argument a s t d) then "" else "x"
  else default "" (argument b s t d).

(** The world in which [__init__] runs [_initialize_data]: the first line is
    printed and the new instance is in the store. *)
Definition started (data_dir filename : string) (w : World) : World :=
  set_heap (<[fresh (dom (heap w)) := OInstance (new_manager data_dir filename)]> (heap w))
    (log_print "Constructor execution started." w).

(** The world after the line that announces the download, and the GET. *)
Definition fetched (m : Manager) (w : World) : World :=
  log_get (url m) (log_print ("Downloading data from " ++ url m ++ "...") w).

(** The device stops before the end of the body. *)
Definition write_fails (limit : option nat) (body : list Byte.byte) : bool :=
  match limit with
  | Some k => bool_decide (k < length body)
  | None => false
  end.

(** ** The rest of the class *)

(** [WHODataManager.print_config] *)
Definition print_config (self : loc) : M unit :=
  m ← lift (λ h, instance h self);
  print ("Data Directory: " ++ str_path (data_dir m));;
  print ("File Path: " ++ str_path (filepath m));;
  print ("URL: " ++ url m);;
  data ← lift (λ h, self_data h self);
  loaded ← lift (λ h, truthy h data);
  records ← (if (loaded : bool) then lift (λ h, len_get h data "value") else mret 0%nat);
  print ("In-Memory Records: " ++ pretty records).

(** The lines [print_config] prints for a manager that holds [n] records. *)
Definition config_lines (m : Manager) (n : nat) : list string :=
  ["Data Directory: " ++ str_path (data_dir m);
   "File Path: " ++ str_path (filepath m);
   "URL: " ++ url m;
   "In-Memory Records: " ++ pretty n].

(** A regular file is at the path. *)
Definition is_file (f : gmap path node) (p : path) : bool :=
  match f !! p with
  | Some (File _) => true
  | _ => false
  end.

(** A component that names one entry of a directory: not empty, not [.] and
    not [..], of at most 255 bytes, none of them a slash or the NUL byte
    (which [open] and [mkdir] refuse with a [ValueError]). *)
Definition plain_name (c : string) : bool :=
  negb (String.eqb c "") && negb (String.eqb c ".") && negb (String.eqb c "..")
  && Nat.leb (String.length c) 255
  && forallb (λ a, negb (Ascii.eqb a "/"%char) && negb (Ascii.eqb a Ascii.zero))
       (String.list_ascii_of_string c).

(** A path that the file system takes as it is written: every component is
    a plain name, so that none is [..], and the whole is shorter than 4096
    bytes. The files of the world are keyed by the components of their
    paths; a path with a [..] component names a file that another key holds,
    and [open] on a path that ends in [..] finds a directory. What is said
    below of the files a call makes or leaves alone is said of such paths. *)
Definition portable (p : path) : bool :=
  forallb plain_name (parts p) && Nat.ltb (String.length (str_path p)) 4096.

(** The second argument asks for no more than the first: it is not given, or
    it is the same. *)
Definition relaxes (arg' arg : option string) : bool :=
  negb (given arg') || bool_decide (arg' = arg).

(** The value is in the store when it is a reference. *)
Definition in_store (h : gmap loc object) (e : value) : bool :=
  match e with
  | VRef l => bool_decide (is_Some (h !! l))
  | _ => true
  end.


(** A dataset whose second element is a list, not a record. *)
Definition ragged_world : World :=
  world_of (who_record "GUY" "2001" "SEX_BTSX" "64.7 [64.1-65.3]") (OList []).


(** ** The monad, step by step *)

Lemma bind_ok {A B} (m : M A) (f : A → M B) w a w1 :
  m w = (Ok a, w1) → (m ≫= f) w = f a w1.
Proof. intros Hm. unfold mbind, M_bind. by rewrite Hm. Qed.

Lemma bind_raise {A B} (m : M A) (f : A → M B) w e w1 :
  m w = (Raise e, w1) → (m ≫= f) w = (Raise e, w1).
Proof. intros Hm. unfold mbind, M_bind. by rewrite Hm. Qed.

Lemma bind_lift_ok {A B} (g : gmap loc object → result A) (f : A → M B) w a :
  g (heap w) = Ok a → (lift g ≫= f) w = f a w.
Proof. intros Hg. apply bind_ok. unfold lift. by rewrite Hg. Qed.

Lemma bind_lift_raise {A B} (g : gmap loc object → result A) (f : A → M B) w e :
  g (heap w) = Raise e → (lift g ≫= f) w = (Raise e, w).
Proof. intros Hg. apply bind_raise. unfold lift. by rewrite Hg. Qed.

(** ** Records and the comprehension *)

Lemma eq_str_spec v s : eq_str v s = true ↔ v = VStr s.
Proof.
  destruct v; simpl; try (split; [done | intros; discriminate]).
  rewrite String.eqb_eq. split; [by intros -> | by intros [= ->]].
Qed.

Lemma is_record_weaken h0 h e :
  h0 ⊆ h → is_record h0 e = true → is_record h e = true.
Proof.
  intros Hsub. destruct e as [| | | | |l]; simpl; try done.
  destruct (h0 !! l) as [[]|] eqn:Hl; try done.
  by rewrite (lookup_weaken _ _ _ _ Hl Hsub).
Qed.

Lemma get_weaken h0 h e key :
  h0 ⊆ h → is_record h0 e = true → get h e key = get h0 e key.
Proof.
  intros Hsub. destruct e as [| | | | |l]; simpl; try done.
  unfold deref. destruct (h0 !! l) as [[]|] eqn:Hl; try done.
  by rewrite (lookup_weaken _ _ _ _ Hl Hsub).
Qed.

Lemma get_record h e key :
  is_record h e = true → ∃ v, get h e key = Ok v.
Proof.
  destruct e as [| | | | |l]; simpl; try done.
  unfold deref. destruct (h !! l) as [[]|]; try done. eauto.
Qed.

Lemma matchb_spec h key s e :
  matchb h key s e = true ↔ get h e key = Ok (VStr s).
Proof.
  unfold matchb. destruct (get h e key) as [v|x].
  - rewrite eq_str_spec. split; [by intros -> | by intros [= ->]].
  - split; intros; discriminate.
Qed.

Lemma matchb_weaken h0 h key s e :
  h0 ⊆ h → is_record h0 e = true → matchb h key s e = matchb h0 key s e.
Proof. intros Hsub He. unfold matchb. by rewrite (get_weaken h0 h). Qed.

(** On records the comprehension's condition never raises, and what is kept
    is the filter. *)
Lemma select_records h0 h key s items :
  h0 ⊆ h → forallb (is_record h0) items = true →
  select h key s items = Ok (filter (λ e, matchb h0 key s e) items).
Proof.
  intros Hsub. induction items as [|e items IH]; simpl; [done |].
  intros [He Hitems]%andb_prop.
  destruct (get_record h e key (is_record_weaken _ _ _ Hsub He)) as [v Hv].
  rewrite Hv, (IH Hitems), filter_cons.
  rewrite <- (matchb_weaken h0 h key s e Hsub He).
  unfold matchb. rewrite Hv.
  destruct (eq_str v s); by case_decide.
Qed.

Lemma forallb_filter {A} (f : A → bool) (P : A → Prop) `{∀ x, Decision (P x)} l :
  forallb f l = true → forallb f (filter P l) = true.
Proof.
  induction l as [|x l IH]; simpl; [done |].
  intros [Hx Hl]%andb_prop. rewrite filter_cons.
  case_decide; simpl; [rewrite Hx |]; auto.
Qed.

(** ** What a query leaves in place *)

(** The second world has every object of the first, unchanged, the same
    files, and no further fetch. *)
Definition extends (w w' : World) : Prop :=
  heap w ⊆ heap w' ∧ fs w' = fs w ∧ gets w' = gets w.

Lemma extends_refl w : extends w w.
Proof. by repeat split. Qed.

Lemma extends_trans w1 w2 w3 : extends w1 w2 → extends w2 w3 → extends w1 w3.
Proof.
  intros (H1 & H2 & H3) (H4 & H5 & H6). repeat split.
  - by etrans.
  - congruence.
  - congruence.
Qed.

Lemma alloc_spec o w :
  ∃ l, alloc o w = (Ok l, set_heap (<[l := o]> (heap w)) w) ∧ heap w !! l = None.
Proof.
  exists (fresh (dom (heap w))). split; [done |].
  apply not_elem_of_dom, is_fresh.
Qed.

Lemma extends_alloc o w l :
  heap w !! l = None → extends w (set_heap (<[l := o]> (heap w)) w).
Proof. intros Hl. repeat split. simpl. by apply insert_subseteq. Qed.

Lemma filter_all {A} (l : list A) : filter (λ _, Is_true true) l = l.
Proof.
  induction l as [|x l IH]; [done |].
  rewrite filter_cons_True by done. by rewrite IH.
Qed.

(** One pass over a list of records: it returns a list, the one it was given
    when the argument is not given and a new one otherwise, and raises
    nothing. *)
Lemma narrow_records h0 key arg w l items :
  h0 ⊆ heap w → heap w !! l = Some (OList items) →
  forallb (is_record h0) items = true →
  ∃ l' w', narrow key arg (VRef l) w = (Ok (VRef l'), w')
    ∧ extends w w' ∧ stdout w' = stdout w
    ∧ heap w' !! l' = Some (OList (filter (λ e, pass h0 key arg e) items))
    ∧ (given arg = false → l' = l ∧ w' = w).
Proof.
  intros Hsub Hl Hrec. unfold narrow, pass. destruct (given arg).
  - unfold comprehension.
    rewrite (bind_lift_ok _ _ w items) by (simpl; unfold deref; by rewrite Hl).
    rewrite (bind_lift_ok _ _ w _ (select_records h0 _ key _ items Hsub Hrec)).
    destruct (alloc_spec (OList (filter (λ e, matchb h0 key (default "" arg) e) items)) w)
      as (l' & Hal & Hfresh).
    rewrite (bind_ok _ _ _ _ _ Hal).
    eexists l', _. split; [reflexivity |].
    split; [by apply extends_alloc |].
    split; [done |].
    split; [simpl; by rewrite lookup_insert_eq | done].
  - exists l, w. rewrite filter_all.
    repeat split; first [done | apply extends_refl].
Qed.

Lemma dataset_inv h self lv items :
  dataset h self = Some (lv, items) →
  ∃ ld d, self_data h self = Ok (VRef ld) ∧ h !! ld = Some (ODict d)
    ∧ d !! "value" = Some (VRef lv) ∧ h !! lv = Some (OList items).
Proof.
  unfold dataset. intros H.
  destruct (self_data h self) as [[| | | | |ld]|]; try done.
  destruct (h !! ld) as [[|d|]|] eqn:Hld; try done.
  destruct (d !! "value") as [[| | | | |lv']|] eqn:Hv; try done.
  destruct (h !! lv') as [[items'| |]|] eqn:Hlv; try done.
  injection H as -> ->. by exists ld, d.
Qed.

(** The guard of [filter_data] lets a dict with a ['value'] entry through. *)
Lemma guard_passes self s t d w ld dd v :
  self_data (heap w) self = Ok (VRef ld) → heap w !! ld = Some (ODict dd) →
  dd !! "value" = Some v →
  filter_data self s t d w =
    (filtered_entries ← narrow "SpatialDim" s v;
     filtered_entries ← narrow "TimeDimensionValue" t filtered_entries;
     filtered_entries ← narrow "Dim1" d filtered_entries;
     mret filtered_entries) w.
Proof.
  intros Hdata Hld Hv. unfold filter_data.
  rewrite (bind_lift_ok _ _ w _ Hdata).
  assert (dd ≠ ∅) as Hne by (intros ->; by rewrite lookup_empty in Hv).
  rewrite (bind_lift_ok _ _ w true).
  2:{ simpl. unfold deref. rewrite Hld. by rewrite bool_decide_eq_false_2. }
  rewrite (bind_lift_ok _ _ w true).
  2:{ simpl. unfold deref. rewrite Hld, Hv. by rewrite bool_decide_eq_true_2. }
  simpl. rewrite (bind_lift_ok _ _ w v).
  2:{ simpl. unfold deref. by rewrite Hld, Hv. }
  done.
Qed.

(** [filter_data] on a loaded dataset of records: it returns a list that
    holds the selected records, in a world that extends the one it started
    in; with no argument given, the list is the loaded one itself and the
    world is the same. *)
Lemma filter_data_records self s t d w lv items :
  dataset (heap w) self = Some (lv, items) →
  forallb (is_record (heap w)) items = true →
  ∃ l' w', filter_data self s t d w = (Ok (VRef l'), w')
    ∧ extends w w' ∧ stdout w' = stdout w
    ∧ heap w' !! l' = Some (OList (selected (heap w) s t d items))
    ∧ (given s = false → given t = false → given d = false → l' = lv ∧ w' = w).
Proof.
  intros (ld & dd & Hdata & Hld & Hv & Hlv)%dataset_inv Hrec.
  rewrite (guard_passes self s t d w ld dd _ Hdata Hld Hv).
  destruct (narrow_records (heap w) "SpatialDim" s w lv items)
    as (l1 & w1 & E1 & X1 & O1 & L1 & N1); [done.. |].
  rewrite (bind_ok _ _ _ _ _ E1).
  destruct (narrow_records (heap w) "TimeDimensionValue" t w1 l1 _ (proj1 X1) L1)
    as (l2 & w2 & E2 & X2 & O2 & L2 & N2); [by apply forallb_filter |].
  rewrite (bind_ok _ _ _ _ _ E2).
  assert (heap w ⊆ heap w2) as Hsub2 by (etrans; [apply X1 | apply X2]).
  destruct (narrow_records (heap w) "Dim1" d w2 l2 _ Hsub2 L2)
    as (l3 & w3 & E3 & X3 & O3 & L3 & N3); [by do 2 apply forallb_filter |].
  rewrite (bind_ok _ _ _ _ _ E3).
  exists l3, w3. split; [done |].
  split; [eauto using extends_trans |].
  split; [congruence |].
  split; [done |].
  intros Hs Ht Hd.
  destruct (N1 Hs) as [-> ->], (N2 Ht) as [-> ->], (N3 Hd) as [-> ->]. done.
Qed.

(** A computation that only adds objects to the store: whatever it returns
    or raises, the world it leaves extends the one it found. *)
Definition adds_only {A} (m : M A) : Prop := ∀ w, extends w (m w).2.

Lemma adds_only_ret {A} (a : A) : adds_only (mret a).
Proof. intros w. apply extends_refl. Qed.

Lemma adds_only_raise {A} e : adds_only (@raise A e).
Proof. intros w. apply extends_refl. Qed.

Lemma adds_only_lift {A} (g : gmap loc object → result A) : adds_only (lift g).
Proof. intros w. apply extends_refl. Qed.

Lemma adds_only_print s : adds_only (print s).
Proof. intros w. by repeat split. Qed.

Lemma adds_only_alloc o : adds_only (alloc o).
Proof.
  intros w. destruct (alloc_spec o w) as (l & -> & Hl). by apply extends_alloc.
Qed.

Lemma adds_only_bind {A B} (m : M A) (f : A → M B) :
  adds_only m → (∀ a, adds_only (f a)) → adds_only (m ≫= f).
Proof.
  intros Hm Hf w. unfold mbind, M_bind.
  specialize (Hm w). destruct (m w) as [[a|e] w1]; simpl in *; [| done].
  eapply extends_trans; [exact Hm | apply Hf].
Qed.

Create HintDb frame discriminated.
#[local] Hint Resolve adds_only_ret adds_only_raise adds_only_lift adds_only_print
  adds_only_alloc : frame.

Ltac frame_steps :=
  repeat first
    [ solve [auto with frame]
    | apply adds_only_bind; [| intros ?]
    | match goal with |- adds_only (if ?b then _ else _) => destruct b end ].

Lemma adds_only_narrow key arg entries : adds_only (narrow key arg entries).
Proof. unfold narrow, comprehension. frame_steps. Qed.

Lemma adds_only_filter_data self s t d : adds_only (filter_data self s t d).
Proof.
  unfold filter_data.
  pose proof adds_only_narrow. frame_steps.
Qed.

Lemma adds_only_get_filtered_data self s t d :
  adds_only (get_filtered_data self s t d).
Proof.
  unfold get_filtered_data.
  pose proof adds_only_filter_data. frame_steps.
Qed.

Lemma serve_extends self qs w : extends w (serve self qs w).
Proof.
  revert w. induction qs as [|[s t d|s t d] qs IH]; intros w; simpl.
  - apply extends_refl.
  - eapply extends_trans; [apply adds_only_filter_data | apply IH].
  - eapply extends_trans; [apply adds_only_get_filtered_data | apply IH].
Qed.

Lemma self_data_weaken h h' self v :
  h ⊆ h' → self_data h self = Ok v → self_data h' self = Ok v.
Proof.
  intros Hsub. unfold self_data, instance, deref.
  destruct (h !! self) as [o|] eqn:Hs; [| done].
  by rewrite (lookup_weaken _ _ _ _ Hs Hsub).
Qed.

Lemma dataset_weaken h h' self lv items :
  h ⊆ h' → dataset h self = Some (lv, items) → dataset h' self = Some (lv, items).
Proof.
  intros Hsub (ld & dd & Hdata & Hld & Hv & Hlv)%dataset_inv.
  unfold dataset. rewrite (self_data_weaken h h' self _ Hsub Hdata).
  rewrite (lookup_weaken _ _ _ _ Hld Hsub), Hv.
  by rewrite (lookup_weaken _ _ _ _ Hlv Hsub).
Qed.

(** ** Arguments and passes *)

Lemma given_spec arg : given arg = true ↔ ∃ v, arg = Some v ∧ v ≠ "".
Proof.
  destruct arg as [v|]; simpl.
  - rewrite negb_true_iff, String.eqb_neq. split.
    + intros Hv. by exists v.
    + by intros (v' & [= <-] & Hv).
  - split; [done | by intros (v & ? & _)].
Qed.

Lemma pass_spec h key arg e :
  pass h key arg e = true ↔
  ∀ v, arg = Some v → v ≠ "" → get h e key = Ok (VStr v).
Proof.
  unfold pass. destruct (given arg) eqn:Hg.
  - apply given_spec in Hg as (v & -> & Hv). simpl.
    rewrite matchb_spec. split; [by intros ? ? [= <-] | eauto].
  - split; [| done]. intros _ v -> Hv.
    assert (given (Some v) = true) by (apply given_spec; eauto). congruence.
Qed.

Lemma elem_of_selected h s t d items e :
  e ∈ selected h s t d items ↔
  e ∈ items ∧ ∀ a v, argument a s t d = Some v → v ≠ "" →
                     get h e (attr_name a) = Ok (VStr v).
Proof.
  unfold selected. rewrite !list_elem_of_filter, !Is_true_true, !pass_spec.
  split.
  - intros (Hd & Ht & Hs & He). split; [done |]. intros []; simpl; auto.
  - intros (He & Ha). repeat split; [apply (Ha Dim1) | apply (Ha TimeDimensionValue) | apply (Ha SpatialDim) | done].
Qed.

Lemma lacks_get h e key : lacks h e key = true → get h e key = Ok VNone.
Proof.
  destruct e as [| | | | |l]; simpl; try done.
  unfold deref. destruct (h !! l) as [[|dd|]|]; try done.
  intros Hk%bool_decide_eq_true. by rewrite Hk.
Qed.

(** ** The guard and the exceptions of the passes *)





(** ** A dataset of one record *)

Lemma single_dataset x y z :
  dataset (heap (single_world x y z)) 1%positive = Some (3%positive, [VRef 4%positive]).
Proof. vm_compute. reflexivity. Qed.

Lemma single_get x y z a :
  get (heap (single_world x y z)) (VRef 4%positive) (attr_name a) =
  Ok (VStr (match a with SpatialDim => x | TimeDimensionValue => y | Dim1 => z end)).
Proof. destruct a; vm_compute; reflexivity. Qed.

Lemma pass_field h key arg e f :
  get h e key = Ok (VStr f) →
  pass h key arg e = if given arg then String.eqb f (default "" arg) else true.
Proof. intros Hget. unfold pass, matchb. by rewrite Hget. Qed.

Lemma filter_single {A} (f : A → bool) (e : A) :
  filter (λ x, f x) [e] = if f e then [e] else [].
Proof.
  rewrite filter_cons, filter_nil.
  destruct (f e) eqn:Hf; case_decide as Hd; done.
Qed.

Lemma selected_single h s t d e :
  selected h s t d [e] =
  if pass h "SpatialDim" s e && pass h "TimeDimensionValue" t e && pass h "Dim1" d e
  then [e] else [].
Proof.
  unfold selected. rewrite filter_single.
  destruct (pass h "SpatialDim" s e); simpl; [| done].
  rewrite filter_single.
  destruct (pass h "TimeDimensionValue" t e); simpl; [| done].
  by rewrite filter_single.
Qed.

Lemma given_default_neq arg : given arg = true → String.eqb "" (default "" arg) = false.
Proof.
  by destruct arg as [[|c v]|].
Qed.

Lemma same_default arg :
  (if given arg then String.eqb (default "" arg) (default "" arg) else true) = true.
Proof. rewrite String.eqb_refl. by destruct (given arg). Qed.

Lemma probe_own_field a s t d :
  probe_field a a s t d = if given (argument a s t d) then "" else "x".
Proof. by destruct a. Qed.

(** The probe record is selected exactly when the query does not constrain
    the probed attribute. *)
Lemma probe_selected a s t d :
  (if given s then String.eqb (probe_field a SpatialDim s t d) (default "" s) else true)
  && (if given t then String.eqb (probe_field a TimeDimensionValue s t d) (default "" t) else true)
  && (if given d then String.eqb (probe_field a Dim1 s t d) (default "" d) else true)
  = negb (given (argument a s t d)).
Proof.
  destruct a; unfold probe_field; cbn [same_attribute argument].
  - rewrite !same_default. destruct (given s) eqn:Hg; [| done].
    by rewrite (given_default_neq _ Hg).
  - rewrite !same_default. destruct (given t) eqn:Hg; [| done].
    by rewrite (given_default_neq _ Hg).
  - rewrite !same_default. destruct (given d) eqn:Hg; [| done].
    by rewrite (given_default_neq _ Hg).
Qed.

(** ** Construction, step by step *)

Section StoreFacts.
Context (E : Env).

Lemma instance_lookup h self m :
  h !! self = Some (OInstance m) → instance h self = Ok m.
Proof. intros H. unfold instance, deref. by rewrite H. Qed.

(** With the cache file there, [_initialize_data] prints and reads it. *)
Lemma initialize_found self w m n :
  instance (heap w) self = Ok m → fs w !! filepath m = Some n →
  _initialize_data E self w =
    load_json E (filepath m)
      (log_print ("File " ++ str_path (filepath m) ++ " found, loading existing data.") w).
Proof.
  intros Hm Hn. unfold _initialize_data.
  rewrite (bind_lift_ok _ _ w m Hm).
  rewrite (bind_ok _ _ w true w) by (unfold path_exists; by rewrite Hn).
  reflexivity.
Qed.

(** With no cache file, it prints, downloads and then reads. *)
Lemma initialize_missing self w m :
  instance (heap w) self = Ok m → fs w !! filepath m = None →
  _initialize_data E self w =
    (download_data E self ≫= λ _, load_json E (filepath m))
      (log_print ("File " ++ str_path (filepath m) ++ " not found.") w).
Proof.
  intros Hm Hn. unfold _initialize_data.
  rewrite (bind_lift_ok _ _ w m Hm).
  rewrite (bind_ok _ _ w false w) by (unfold path_exists; by rewrite Hn).
  reflexivity.
Qed.

Lemma init_unfold data_dir filename w :
  __init__ E data_dir filename w =
    (data ← _initialize_data E (fresh (dom (heap w)));
     set_data (fresh (dom (heap w))) data;;
     print "Constructor execution finished.";;
     mret (fresh (dom (heap w)))) (started data_dir filename w).
Proof. reflexivity. Qed.

Lemma started_instance data_dir filename w :
  instance (heap (started data_dir filename w)) (fresh (dom (heap w)))
  = Ok (new_manager data_dir filename).
Proof. apply instance_lookup. simpl. apply lookup_insert_eq. Qed.

Lemma load_json_file p w c :
  fs w !! p = Some (File c) →
  load_json E p w =
    match json_load E c (heap w) with
    | Some (v, h') => (Ok v, set_heap h' w)
    | None => (Raise JSONDecodeError, w)
    end.
Proof. intros Hp. unfold load_json. by rewrite Hp. Qed.

Lemma init_found data_dir filename w c :
  fs w !! joinpath (Path data_dir) filename = Some (File c) →
  __init__ E data_dir filename w =
    match json_load E c (heap (started data_dir filename w)) with
    | Some (v, h') =>
        (set_data (fresh (dom (heap w))) v;;
         print "Constructor execution finished.";;
         mret (fresh (dom (heap w))))
          (set_heap h'
             (log_print ("File " ++ str_path (joinpath (Path data_dir) filename)
                         ++ " found, loading existing data.")
                (started data_dir filename w)))
    | None =>
        (Raise JSONDecodeError,
         log_print ("File " ++ str_path (joinpath (Path data_dir) filename)
                    ++ " found, loading existing data.")
           (started data_dir filename w))
    end.
Proof.
  intros Hfile. rewrite init_unfold.
  unfold mbind at 1, M_bind at 1.
  rewrite (initialize_found _ _ _ (File c) (started_instance _ _ _)) by exact Hfile.
  rewrite (load_json_file _ _ c) by exact Hfile.
  by destruct (json_load E c _) as [[v h']|].
Qed.

Lemma init_missing data_dir filename w :
  fs w !! joinpath (Path data_dir) filename = None →
  __init__ E data_dir filename w =
    ((download_data E (fresh (dom (heap w)))
        ≫= λ _, load_json E (joinpath (Path data_dir) filename))
     ≫= λ data, set_data (fresh (dom (heap w))) data;;
                print "Constructor execution finished.";;
                mret (fresh (dom (heap w))))
      (log_print ("File " ++ str_path (joinpath (Path data_dir) filename) ++ " not found.")
         (started data_dir filename w)).
Proof.
  intros Hfile. rewrite init_unfold.
  unfold mbind at 1, M_bind at 1.
  rewrite (initialize_missing _ _ _ (started_instance _ _ _)) by exact Hfile.
  reflexivity.
Qed.


Lemma download_no_answer self w m :
  instance (heap w) self = Ok m →
  remote E (url m) = Unreachable ∨ remote E (url m) = TimedOut →
  ∃ e, download_data E self w = (Raise (Exception download_failed e), fetched m w).
Proof.
  intros Hm Hremote. unfold download_data.
  rewrite (bind_lift_ok _ _ w m Hm).
  unfold mbind, M_bind, print, try_except, requests_get.
  destruct Hremote as [-> | ->]; eauto.
Qed.

Lemma download_writes self w m st body f :
  instance (heap w) self = Ok m → remote E (url m) = Response st body →
  ¬ (400 ≤ st < 600)%Z →
  mkdirs (chain (data_dir m)) (fs w) = Ok f →
  f !! filepath m ≠ Some Dir → is_dir f (parent (filepath m)) = true →
  download_data E self w =
    if write_fails (write_limit E) body then
      (Raise (Exception download_failed OSError),
       set_fs (<[filepath m := File (take (default 0 (write_limit E)) body)]> f) (fetched m w))
    else
      (Ok tt,
       log_print ("Data successfully downloaded to " ++ str_path (filepath m))
         (set_fs (<[filepath m := File body]> f) (fetched m w))).
Proof.
  intros Hm Hremote Hst Hmk Hnodir Hparent. unfold download_data.
  rewrite (bind_lift_ok _ _ w m Hm).
  unfold mbind, M_bind, print, try_except, requests_get. rewrite Hremote.
  cbn [fst snd]. unfold raise_for_status. rewrite bool_decide_eq_false_2 by done.
  unfold mret, M_ret, ensure_data_directory, mbind, M_bind, lift.
  cbn [heap log_get log_print]. rewrite Hm.
  unfold mkdir_parents. cbn [fs log_get log_print]. rewrite Hmk.
  unfold write_bytes. cbn [fs set_fs]. rewrite Hparent.
  unfold write_fails.
  destruct (f !! filepath m) as [[c|]|] eqn:Hp; [| done |];
    destruct (write_limit E) as [k|]; try done; simpl; by case_bool_decide.
Qed.

(** ** The claims about construction *)



End StoreFacts.






(** ** The claims about filtering *)

(** C1, amended (filter conjunction). On a loaded dataset of records, for
    whatever arguments, [filter_data] returns a list, and a record is in it
    if and only if it is in the dataset and, for every attribute whose
    argument is given and is not the empty string, the record's value for
    that attribute is that string. *)
Theorem filter_conjunction self s t d w lv items :
  dataset (heap w) self = Some (lv, items) →
  forallb (is_record (heap w)) items = true →
  ∃ l' w' items',
    filter_data self s t d w = (Ok (VRef l'), w')
    ∧ heap w' !! l' = Some (OList items')
    ∧ ∀ e, e ∈ items' ↔
        e ∈ items ∧ ∀ a v, argument a s t d = Some v → v ≠ "" →
                           get (heap w) e (attr_name a) = Ok (VStr v).
Proof.
  intros Hdata Hrec.
  destruct (filter_data_records self s t d w lv items Hdata Hrec)
    as (l' & w' & Hrun & _ & _ & Hl' & _).
  exists l', w', (selected (heap w) s t d items).
  split; [done |]. split; [done |]. intros e. apply elem_of_selected.
Qed.

(** C1, amended, on the scenario of two records. *)
Lemma filter_conjunction_scenario :
  ∃ l' w' items',
    filter_data 1%positive (Some "GUY") (Some "2001") (Some "SEX_BTSX") sample_world
      = (Ok (VRef l'), w')
    ∧ heap w' !! l' = Some (OList items')
    ∧ ∀ e, e ∈ items' ↔
        e ∈ [VRef 4%positive; VRef 5%positive]
        ∧ ∀ a v, argument a (Some "GUY") (Some "2001") (Some "SEX_BTSX") = Some v → v ≠ "" →
                 get (heap sample_world) e (attr_name a) = Ok (VStr v).
Proof.
  apply (filter_conjunction 1%positive _ _ _ sample_world 3%positive).
  - vm_compute. reflexivity.
  - vm_compute. reflexivity.
Defined.

(** C1 as stated fails for a predicate whose expected value is the empty
    string: [filter_data(spatial_dim="")] returns the whole dataset, in which
    the record at 4 has the [SpatialDim] ["GUY"]. *)
Lemma empty_string_is_no_constraint :
  filter_data 1%positive (Some "") None None sample_world
    = (Ok (VRef 3%positive), sample_world)
  ∧ heap sample_world !! 3%positive = Some (OList [VRef 4%positive; VRef 5%positive])
  ∧ get (heap sample_world) (VRef 4%positive) "SpatialDim" = Ok (VStr "GUY")
  ∧ VStr "GUY" ≠ VStr "".
Proof. repeat split; [vm_compute; reflexivity.. | discriminate]. Qed.

(** C2 (no-predicate identity). When each of the three parameters is either
    not passed or passed as [None], [filter_data] returns the loaded list
    itself, with its records in their order, and leaves the world as it is. *)
Theorem no_predicate_identity self kw w lv items :
  dataset (heap w) self = Some (lv, items) →
  (∀ name arg, kw !! name = Some arg → name ∈ filter_params ∧ arg = None) →
  call_filter_data self kw w = (Ok (VRef lv), w)
  ∧ heap w !! lv = Some (OList items).
Proof.
  intros (ld & dd & Hdata & Hld & Hv & Hlv)%dataset_inv Hkw.
  split; [| done]. unfold call_filter_data.
  rewrite bool_decide_eq_true_2.
  2:{ intros name [arg Harg]%elem_of_dom. apply elem_of_list_to_set.
      by destruct (Hkw name arg Harg). }
  assert (∀ name, param kw name = None) as Hparam.
  { intros name. unfold param. destruct (kw !! name) as [arg|] eqn:Harg; [| done].
    by destruct (Hkw name arg Harg) as [_ ->]. }
  rewrite !Hparam.
  by rewrite (guard_passes self None None None w ld dd _ Hdata Hld Hv).
Qed.

(** C2, on the scenario, with one parameter passed as [None] and the two
    others not passed. *)
Lemma no_predicate_identity_sample :
  call_filter_data 1%positive {["time_dimension_value" := None]} sample_world
    = (Ok (VRef 3%positive), sample_world)
  ∧ heap sample_world !! 3%positive = Some (OList [VRef 4%positive; VRef 5%positive]).
Proof.
  apply (no_predicate_identity 1%positive _ sample_world 3%positive).
  - vm_compute. reflexivity.
  - intros name arg [<- <-]%lookup_singleton_Some. split; [| done].
    unfold filter_params. set_solver.
Defined.




(** C7, amended (missing attributes). On a loaded dataset of records,
    [filter_data] raises nothing, for whatever arguments; a record with no
    entry for an attribute whose argument is given and not the empty string
    is not in the result; and when no record of the dataset satisfies all
    such arguments, the result is the empty list. *)
Theorem missing_attribute_totality self s t d w lv items :
  dataset (heap w) self = Some (lv, items) →
  forallb (is_record (heap w)) items = true →
  ∃ l' w' items',
    filter_data self s t d w = (Ok (VRef l'), w')
    ∧ heap w' !! l' = Some (OList items')
    ∧ (∀ e a v, argument a s t d = Some v → v ≠ "" →
         lacks (heap w) e (attr_name a) = true → e ∉ items')
    ∧ ((∀ e, e ∈ items → ∃ a v, argument a s t d = Some v ∧ v ≠ ""
                              ∧ get (heap w) e (attr_name a) ≠ Ok (VStr v)) →
       items' = []).
Proof.
  intros Hdata Hrec.
  destruct (filter_data_records self s t d w lv items Hdata Hrec)
    as (l' & w' & Hrun & _ & _ & Hl' & _).
  exists l', w', (selected (heap w) s t d items).
  split; [done |]. split; [done |]. split.
  - intros e a v Ha Hv Hlacks [_ Hin]%elem_of_selected.
    specialize (Hin a v Ha Hv). rewrite (lacks_get _ _ _ Hlacks) in Hin. done.
  - intros Hnone. apply elem_of_nil_inv. intros e [He Hin]%elem_of_selected.
    destruct (Hnone e He) as (a & v & Ha & Hv & Hne). by apply Hne, Hin.
Qed.

(** C7, amended, on a dataset with a record that has no [SpatialDim]. *)
Lemma missing_attribute_sample :
  ∃ l' w' items',
    filter_data 1%positive (Some "GUY") None None sparse_world = (Ok (VRef l'), w')
    ∧ heap w' !! l' = Some (OList items')
    ∧ (∀ e a v, argument a (Some "GUY") None None = Some v → v ≠ "" →
         lacks (heap sparse_world) e (attr_name a) = true → e ∉ items')
    ∧ ((∀ e, e ∈ [VRef 4%positive; VRef 5%positive] →
          ∃ a v, argument a (Some "GUY") None None = Some v ∧ v ≠ ""
                 ∧ get (heap sparse_world) e (attr_name a) ≠ Ok (VStr v)) →
       items' = []).
Proof.
  apply (missing_attribute_totality 1%positive _ _ _ sparse_world 3%positive);
    vm_compute; reflexivity.
Defined.

(** C7 as stated fails for the predicate [spatial_dim=""], which is not
    [None]: the record at 4 has no [SpatialDim] entry and is in the result. *)
Lemma empty_string_keeps_record_without_attribute :
  filter_data 1%positive (Some "") None None sparse_world
    = (Ok (VRef 3%positive), sparse_world)
  ∧ heap sparse_world !! 3%positive = Some (OList [VRef 4%positive; VRef 5%positive])
  ∧ lacks (heap sparse_world) (VRef 4%positive) "SpatialDim" = true.
Proof. repeat split; vm_compute; reflexivity. Qed.

(** C8 (sub-sequence). On a loaded dataset of records, the list
    [filter_data] returns is a sub-sequence of the dataset, its records in
    the order of the dataset, and its length is between 0 and the length of
    the dataset. *)
Theorem filter_subsequence self s t d w lv items :
  dataset (heap w) self = Some (lv, items) →
  forallb (is_record (heap w)) items = true →
  ∃ l' w' items',
    filter_data self s t d w = (Ok (VRef l'), w')
    ∧ heap w' !! l' = Some (OList items')
    ∧ items' `sublist_of` items
    ∧ (0 ≤ length items' ≤ length items)%nat.
Proof.
  intros Hdata Hrec.
  destruct (filter_data_records self s t d w lv items Hdata Hrec)
    as (l' & w' & Hrun & _ & _ & Hl' & _).
  exists l', w', (selected (heap w) s t d items).
  assert (selected (heap w) s t d items `sublist_of` items) as Hsub.
  { unfold selected. do 2 (etrans; [apply sublist_filter |]). apply sublist_filter. }
  repeat split; [done | done | done | lia | by apply sublist_length].
Qed.

(** C8, on the scenario. *)
Lemma filter_subsequence_sample :
  ∃ l' w' items',
    filter_data 1%positive (Some "USA") None None sample_world = (Ok (VRef l'), w')
    ∧ heap w' !! l' = Some (OList items')
    ∧ items' `sublist_of` [VRef 4%positive; VRef 5%positive]
    ∧ (0 ≤ length items' ≤ length [VRef 4%positive; VRef 5%positive])%nat.
Proof.
  apply (filter_subsequence 1%positive _ _ _ sample_world 3%positive);
    vm_compute; reflexivity.
Defined.

(** C9 (frame). After any number of queries through [filter_data] and
    [get_filtered_data], whether they returned or raised, the dataset of the
    manager is the same list with the same records, every object that was
    in the store is unchanged, the files are the same and nothing was
    fetched. *)
Theorem queries_frame self qs w lv items :
  dataset (heap w) self = Some (lv, items) →
  dataset (heap (serve self qs w)) self = Some (lv, items)
  ∧ (∀ l o, heap w !! l = Some o → heap (serve self qs w) !! l = Some o)
  ∧ fs (serve self qs w) = fs w
  ∧ gets (serve self qs w) = gets w.
Proof.
  intros Hdata. destruct (serve_extends self qs w) as (Hheap & Hfs & Hgets).
  split; [by apply (dataset_weaken (heap w)) |].
  split; [| done]. intros l o Hl. by apply (lookup_weaken (heap w)).
Qed.

(** C9, on the scenario, after three queries. *)
Lemma queries_frame_sample :
  dataset (heap (serve 1%positive
      [GetFiltered (Some "GUY") (Some "2001") (Some "SEX_BTSX");
       Filter None None None; GetFiltered (Some "FRA") None None] sample_world)) 1%positive
    = Some (3%positive, [VRef 4%positive; VRef 5%positive])
  ∧ (∀ l o, heap sample_world !! l = Some o →
       heap (serve 1%positive
         [GetFiltered (Some "GUY") (Some "2001") (Some "SEX_BTSX");
          Filter None None None; GetFiltered (Some "FRA") None None] sample_world) !! l = Some o)
  ∧ fs (serve 1%positive
         [GetFiltered (Some "GUY") (Some "2001") (Some "SEX_BTSX");
          Filter None None None; GetFiltered (Some "FRA") None None] sample_world) = fs sample_world
  ∧ gets (serve 1%positive
         [GetFiltered (Some "GUY") (Some "2001") (Some "SEX_BTSX");
          Filter None None None; GetFiltered (Some "FRA") None None] sample_world) = gets sample_world.
Proof.
  apply (queries_frame 1%positive _ sample_world 3%positive).
  vm_compute. reflexivity.
Defined.

(** C10, amended (empty-string arguments). An argument that is the empty
    string does what [None] does, in each of the three positions. And for
    each of the three attributes, no choice of arguments selects, on every
    dataset, exactly the records whose value for the attribute is the empty
    string: whatever the arguments, there is a dataset of records on which
    the result is another list. *)
Theorem empty_string_predicate_noop self s t d w :
  (filter_data self (Some "") t d w = filter_data self None t d w
   ∧ filter_data self s (Some "") d w = filter_data self s None d w
   ∧ filter_data self s t (Some "") w = filter_data self s t None w)
  ∧ ∀ a : attribute, ∃ w0 lv items l' w' items',
      dataset (heap w0) 1%positive = Some (lv, items)
      ∧ forallb (is_record (heap w0)) items = true
      ∧ filter_data 1%positive s t d w0 = (Ok (VRef l'), w')
      ∧ heap w' !! l' = Some (OList items')
      ∧ items' ≠ filter (λ e, matchb (heap w0) (attr_name a) "" e) items.
Proof.
  split; [repeat split |]. intros a.
  pose (x := probe_field a SpatialDim s t d).
  pose (y := probe_field a TimeDimensionValue s t d).
  pose (z := probe_field a Dim1 s t d).
  assert (forallb (is_record (heap (single_world x y z))) [VRef 4%positive] = true) as Hrec
    by (vm_compute; reflexivity).
  destruct (filter_data_records 1%positive s t d (single_world x y z) _ _
              (single_dataset x y z) Hrec) as (l' & w' & Hrun & _ & _ & Hl' & _).
  exists (single_world x y z), 3%positive, [VRef 4%positive], l', w',
    (selected (heap (single_world x y z)) s t d [VRef 4%positive]).
  split; [apply single_dataset |]. split; [exact Hrec |].
  split; [exact Hrun |]. split; [exact Hl' |].
  clear Hrun Hl' Hrec.
  rewrite selected_single, filter_single.
  rewrite (pass_field _ "SpatialDim" s _ _ (single_get x y z SpatialDim)).
  rewrite (pass_field _ "TimeDimensionValue" t _ _ (single_get x y z TimeDimensionValue)).
  rewrite (pass_field _ "Dim1" d _ _ (single_get x y z Dim1)).
  unfold matchb. rewrite (single_get x y z a).
  assert (eq_str (VStr match a with SpatialDim => x | TimeDimensionValue => y | Dim1 => z end) ""
          = given (argument a s t d)) as ->.
  { replace (match a with SpatialDim => x | TimeDimensionValue => y | Dim1 => z end)
      with (probe_field a a s t d) by (by destruct a).
    rewrite probe_own_field. by destruct (given (argument a s t d)). }
  unfold x, y, z. rewrite probe_selected.
  by destruct (given (argument a s t d)).
Qed.

(** C10 as stated fails on a dataset in which the records with an empty
    [SpatialDim] are those with the [Dim1] ["A"]: the call with [dim1="A"]
    returns exactly the records whose [SpatialDim] is the empty string. *)
Lemma nonblank_call_selects_blank_records :
  filter_data 1%positive None None (Some "A") blank_world
    = (Ok (VRef 6%positive),
       set_heap (<[6%positive := OList [VRef 4%positive]]> (heap blank_world)) blank_world)
  ∧ dataset (heap blank_world) 1%positive = Some (3%positive, [VRef 4%positive; VRef 5%positive])
  ∧ filter (λ e, matchb (heap blank_world) "SpatialDim" "" e) [VRef 4%positive; VRef 5%positive]
    = [VRef 4%positive].
Proof. repeat split; vm_compute; reflexivity. Qed.

(** ** The data directory *)

Lemma mkdirs_lookup ps f f' q :
  mkdirs ps f = Ok f' →
  f' !! q = if bool_decide (q ∈ ps) then Some Dir else f !! q.
Proof.
  revert f. induction ps as [|p ps IH]; intros f; simpl.
  { by intros [= ->]. }
  assert (∀ g, mkdirs ps (<[p := Dir]> g) = Ok f' →
               f' !! q = if bool_decide (q ∈ p :: ps) then Some Dir else g !! q) as Hstep.
  { intros g Hrest. rewrite (IH _ Hrest).
    destruct (decide (q ∈ ps)) as [Hin|Hnin].
    - rewrite !bool_decide_eq_true_2; [done | by right | done].
    - rewrite (bool_decide_eq_false_2 (q ∈ ps)) by done.
      destruct (decide (q = p)) as [->|Hne].
      + rewrite lookup_insert_eq, bool_decide_eq_true_2; [done | by left].
      + rewrite lookup_insert_ne by done.
        rewrite bool_decide_eq_false_2; [done |].
        by intros [?|?]%elem_of_cons. }
  destruct (f !! p) as [[c|]|]; [done | apply Hstep | apply Hstep].
Qed.

Lemma forallb_pointwise {A} (f g : A → bool) l :
  (∀ x, f x = g x) → forallb f l = forallb g l.
Proof. intros Hfg. induction l as [|x l IH]; simpl; [done |]. by rewrite Hfg, IH. Qed.

Lemma is_file_insert_dir f p q :
  is_file f p = false → is_file (<[p := Dir]> f) q = is_file f q.
Proof.
  intros Hp. unfold is_file in *. destruct (decide (q = p)) as [->|Hne].
  - rewrite lookup_insert_eq. by destruct (f !! p) as [[c|]|].
  - by rewrite lookup_insert_ne.
Qed.

(** [mkdirs] goes through exactly when no path of the chain is a regular
    file, and raises one of two errors when one is. *)
Lemma mkdirs_result ps f :
  match mkdirs ps f with
  | Ok _ => forallb (λ p, negb (is_file f p)) ps = true
  | Raise e =>
      forallb (λ p, negb (is_file f p)) ps = false
      ∧ (e = FileExistsError ∨ e = NotADirectoryError)
  end.
Proof.
  revert f. induction ps as [|p ps IH]; intros f; simpl; [done |].
  destruct (is_file f p) eqn:Hp; simpl.
  - unfold is_file in Hp. destruct (f !! p) as [[c|]|]; try done.
    split; [done |]. destruct ps; auto.
  - assert (mkdirs ps (<[p := Dir]> f) =
            match f !! p with
            | Some (File _) =>
                Raise (match ps with [] => FileExistsError | _ => NotADirectoryError end)
            | _ => mkdirs ps (<[p := Dir]> f)
            end) as <-.
    { unfold is_file in Hp. by destruct (f !! p) as [[c|]|]. }
    specialize (IH (<[p := Dir]> f)).
    rewrite (forallb_pointwise _ (λ q, negb (is_file f q))) in IH; [done |].
    intros q. by rewrite (is_file_insert_dir f p q Hp).
Qed.

(** Once the chain is made of directories, making it again changes nothing. *)
Lemma mkdirs_dirs ps f :
  Forall (λ p, f !! p = Some Dir) ps → mkdirs ps f = Ok f.
Proof.
  induction 1 as [|p ps Hp Hps IH]; simpl; [done |].
  by rewrite Hp, insert_id.
Qed.

Lemma mkdirs_idempotent ps f f' : mkdirs ps f = Ok f' → mkdirs ps f' = Ok f'.
Proof.
  intros Hmk. apply mkdirs_dirs, Forall_forall. intros p Hp.
  by rewrite (mkdirs_lookup ps f f' p Hmk), bool_decide_eq_true_2.
Qed.

(** X6. For a data directory made of plain names, none of them [..]: when
    no path of its chain is a regular file, [ensure_data_directory] returns;
    afterwards every path of the chain is a directory, and every other path
    of the same kind (anchored or not, as the data directory is, and made of
    plain names) is as it was; the store, the fetches and the output are
    untouched. *)
Theorem ensure_data_directory_makes_chain self w m :
  instance (heap w) self = Ok m →
  portable (data_dir m) = true →
  forallb (λ p, negb (is_file (fs w) p)) (chain (data_dir m)) = true →
  (ensure_data_directory self w).1 = Ok tt
  ∧ (∀ q, anchored q = anchored (data_dir m) → portable q = true →
          fs (ensure_data_directory self w).2 !! q
          = if bool_decide (q ∈ chain (data_dir m)) then Some Dir else fs w !! q)
  ∧ heap (ensure_data_directory self w).2 = heap w
  ∧ gets (ensure_data_directory self w).2 = gets w
  ∧ stdout (ensure_data_directory self w).2 = stdout w.
Proof.
  intros Hm _ Hfree. unfold ensure_data_directory.
  rewrite (bind_lift_ok _ _ w m Hm). unfold mkdir_parents.
  pose proof (mkdirs_result (chain (data_dir m)) (fs w)) as Hres.
  destruct (mkdirs (chain (data_dir m)) (fs w)) as [f'|e] eqn:Hmk.
  - repeat split. intros q _ _. simpl. by apply mkdirs_lookup.
  - destruct Hres as [Hres _]. congruence.
Qed.

(** X6, for a manager whose data directory is not there yet. *)
Lemma ensure_data_directory_makes_chain_sample :
  (ensure_data_directory 1%positive (unloaded_world VNone)).1 = Ok tt
  ∧ (∀ q, anchored q = anchored (data_dir (new_manager "Data" "WHOSIS_000001.json")) →
          portable q = true →
          fs (ensure_data_directory 1%positive (unloaded_world VNone)).2 !! q
          = if bool_decide (q ∈ chain (data_dir (new_manager "Data" "WHOSIS_000001.json")))
            then Some Dir else fs (unloaded_world VNone) !! q)
  ∧ heap (ensure_data_directory 1%positive (unloaded_world VNone)).2
    = heap (unloaded_world VNone)
  ∧ gets (ensure_data_directory 1%positive (unloaded_world VNone)).2
    = gets (unloaded_world VNone)
  ∧ stdout (ensure_data_directory 1%positive (unloaded_world VNone)).2
    = stdout (unloaded_world VNone).
Proof.
  apply (ensure_data_directory_makes_chain 1%positive (unloaded_world VNone)
           (MkManager (Path "Data") "WHOSIS_000001.json"
              (joinpath (Path "Data") "WHOSIS_000001.json") source_url (Some VNone)));
    vm_compute; reflexivity.
Defined.



(** X8. For a manager whose data directory is made of plain names, none of
    them [..], [ensure_data_directory] is idempotent: run in the world a
    first run left, it gives the same result and the same world as the
    first run. *)
Theorem ensure_data_directory_idempotent self w m :
  instance (heap w) self = Ok m →
  portable (data_dir m) = true →
  ensure_data_directory self (ensure_data_directory self w).2
  = ensure_data_directory self w.
Proof.
  intros Hm _.
  unfold ensure_data_directory, mbind, M_bind, lift, mkdir_parents.
  rewrite Hm. cbn [snd].
  destruct (mkdirs (chain (data_dir m)) (fs w)) as [f'|e] eqn:Hmk;
    cbn [snd heap set_fs fs]; rewrite Hm; [| by rewrite Hmk].
  by rewrite (mkdirs_idempotent _ _ _ Hmk).
Qed.

(** X8, for a manager whose data directory is not there yet. *)
Lemma ensure_data_directory_idempotent_sample :
  ensure_data_directory 1%positive
    (ensure_data_directory 1%positive (unloaded_world VNone)).2
  = ensure_data_directory 1%positive (unloaded_world VNone).
Proof.
  apply (ensure_data_directory_idempotent 1%positive (unloaded_world VNone)
           (MkManager (Path "Data") "WHOSIS_000001.json"
              (joinpath (Path "Data") "WHOSIS_000001.json") source_url (Some VNone)));
    vm_compute; reflexivity.
Defined.

(** ** Plain file names *)

Lemma elem_of_chain q p :
  q ∈ chain p ↔ ∃ k : nat, (1 ≤ k ≤ length (parts p))%nat ∧ q = MkPath (anchored p) (take k (parts p)).
Proof.
  unfold chain. rewrite list_elem_of_fmap. split.
  - intros (k & -> & Hk%elem_of_seq). exists k. split; [lia | done].
  - intros (k & Hk & ->). exists k. split; [done |]. apply elem_of_seq. lia.
Qed.

Lemma joinpath_plain dir name c :
  Path name = MkPath false [c] →
  joinpath dir name = MkPath (anchored dir) (parts dir ++ [c]).
Proof. intros Hname. unfold joinpath. by rewrite Hname. Qed.

Lemma plain_not_in_chain dir name c :
  Path name = MkPath false [c] → joinpath dir name ∉ chain dir.
Proof.
  intros Hname. rewrite (joinpath_plain dir name c Hname).
  intros (k & Hk & [= Heq])%elem_of_chain.
  apply (f_equal length) in Heq. rewrite length_app, length_take in Heq. simpl in Heq. lia.
Qed.

Lemma parent_plain dir name c :
  Path name = MkPath false [c] → parent (joinpath dir name) = dir.
Proof.
  intros Hname. rewrite (joinpath_plain dir name c Hname).
  unfold parent. cbn [anchored parts]. rewrite removelast_last. by destruct dir.
Qed.

Lemma dir_in_chain dir : parts dir ≠ [] → dir ∈ chain dir.
Proof.
  intros Hne. apply elem_of_chain. exists (length (parts dir)).
  split; [destruct (parts dir); simpl; [done | lia] |].
  rewrite firstn_all. by destruct dir.
Qed.

(** After the chain of a directory is made, a plain file name in it can be
    written: the directory is there, and the path of the file is as it was. *)
Lemma mkdirs_plain dir name c f f' :
  Path name = MkPath false [c] → mkdirs (chain dir) f = Ok f' →
  f' !! joinpath dir name = f !! joinpath dir name
  ∧ is_dir f' (parent (joinpath dir name)) = true.
Proof.
  intros Hname Hmk. split.
  - rewrite (mkdirs_lookup _ _ _ _ Hmk).
    by rewrite bool_decide_eq_false_2 by (by apply (plain_not_in_chain dir name c)).
  - rewrite (parent_plain dir name c Hname). unfold is_dir.
    destruct (parts dir) as [|x xs] eqn:Hparts; [done |].
    rewrite (mkdirs_lookup _ _ _ _ Hmk), bool_decide_eq_true_2; [done |].
    apply dir_in_chain. by rewrite Hparts.
Qed.

(** ** The download and the construction, continued *)

Section MoreStoreFacts.
Context (E : Env).

(** X1. Whatever happens, [download_data] issues exactly one GET and leaves
    the store alone; an exception it raises is the [Exception] that wraps
    the cause; and when it returns, the response was no 4xx or 5xx and the
    cache file holds the body of the response. *)
Theorem download_data_outcomes self w m :
  instance (heap w) self = Ok m →
  gets (download_data E self w).2 = (gets w ++ [url m])%list
  ∧ heap (download_data E self w).2 = heap w
  ∧ match (download_data E self w).1 with
    | Raise e => ∃ cause, e = Exception download_failed cause
    | Ok _ => ∃ st body, remote E (url m) = Response st body
                         ∧ ¬ (400 ≤ st < 600)%Z
                         ∧ fs (download_data E self w).2 !! filepath m = Some (File body)
    end.
Proof.
  intros Hm. unfold download_data.
  rewrite (bind_lift_ok _ _ w m Hm).
  unfold mbind, M_bind, print, try_except, requests_get, raise_for_status, raise,
    mret, M_ret, ensure_data_directory, mbind, M_bind, lift, mkdir_parents, write_bytes.
  destruct (remote E (url m)) as [| |st body] eqn:Hremote;
    cbn [fst snd heap fs gets log_get log_print set_fs].
  1,2: by eauto.
  case_bool_decide as Hst; cbn [fst snd heap fs gets log_get log_print set_fs];
    [by eauto |].
  rewrite Hm.
  destruct (mkdirs (chain (data_dir m)) (fs w)) as [f|e];
    cbn [fst snd heap fs gets log_get log_print set_fs]; [| by eauto].
  destruct (f !! filepath m) as [[c|]|] eqn:Hp;
    cbn [fst snd heap fs gets log_get log_print set_fs]; [| by eauto |].
  all: destruct (is_dir f (parent (filepath m)));
    cbn [fst snd heap fs gets log_get log_print set_fs]; [| by eauto].
  all: destruct (write_limit E) as [k|]; [case_bool_decide |];
    cbn [fst snd heap fs gets log_get log_print set_fs]; try (by eauto).
  all: repeat split; exists st, body; by rewrite lookup_insert_eq.
Qed.




Lemma bind_inv_ok {A B} (m : M A) (f : A → M B) w b w' :
  (m ≫= f) w = (Ok b, w') → ∃ a w1, m w = (Ok a, w1) ∧ f a w1 = (Ok b, w').
Proof.
  unfold mbind, M_bind. destruct (m w) as [[a|e] w1]; [eauto | done].
Qed.

Lemma load_json_ok p w v w' :
  load_json E p w = (Ok v, w') → (∃ c, fs w !! p = Some (File c)) ∧ fs w' = fs w.
Proof.
  unfold load_json. destruct (fs w !! p) as [[c|]|]; try done.
  destruct (json_load E c (heap w)) as [[v' h']|]; [| done].
  intros [= _ <-]. eauto.
Qed.

(** When [_initialize_data] returns, the cache file is there. *)
Lemma initialize_ok_file self w m v w' :
  instance (heap w) self = Ok m →
  _initialize_data E self w = (Ok v, w') → ∃ c, fs w' !! filepath m = Some (File c).
Proof.
  intros Hm. unfold _initialize_data. rewrite (bind_lift_ok _ _ w m Hm).
  intros (found & w1 & _ & (u & w2 & _ & Hload)%bind_inv_ok)%bind_inv_ok.
  destruct (load_json_ok _ _ _ _ Hload) as [[c Hc] Hfs]. exists c. by rewrite Hfs.
Qed.

Lemma finish_init_fs self v w1 :
  fs ((set_data self v;; print "Constructor execution finished.";; mret self) w1).2 = fs w1
  ∧ gets ((set_data self v;; print "Constructor execution finished.";; mret self) w1).2
    = gets w1.
Proof.
  unfold mbind, M_bind, set_data, print.
  by destruct (instance (heap w1) self).
Qed.

Lemma init_ok_file data_dir filename w self :
  (__init__ E data_dir filename w).1 = Ok self →
  ∃ c, fs (__init__ E data_dir filename w).2 !! joinpath (Path data_dir) filename
       = Some (File c).
Proof.
  rewrite init_unfold.
  destruct (_initialize_data E (fresh (dom (heap w))) (started data_dir filename w))
    as [[v|e] w1] eqn:Hinit.
  - rewrite (bind_ok _ _ _ _ _ Hinit). intros _.
    destruct (initialize_ok_file _ _ _ _ _ (started_instance _ _ _) Hinit) as [c Hc].
    exists c. by rewrite (proj1 (finish_init_fs _ _ _)).
  - by rewrite (bind_raise _ _ _ _ _ Hinit).
Qed.
End MoreStoreFacts.

(** With a node at the cache path, construction fetches nothing and changes
    no file. *)
Lemma init_found_frame E data_dir filename w n :
  fs w !! joinpath (Path data_dir) filename = Some n →
  gets (__init__ E data_dir filename w).2 = gets w
  ∧ fs (__init__ E data_dir filename w).2 = fs w.
Proof.
  intros Hfile. rewrite init_unfold.
  set (w0 := log_print ("File " ++ str_path (joinpath (Path data_dir) filename)
                        ++ " found, loading existing data.") (started data_dir filename w)).
  assert (_initialize_data E (fresh (dom (heap w))) (started data_dir filename w)
          = load_json E (joinpath (Path data_dir) filename) w0) as Hinit
    by (by rewrite (initialize_found E _ _ _ n (started_instance _ _ _))).
  assert (fs w0 = fs w ∧ gets w0 = gets w) as [Hfs Hgets] by done.
  destruct (load_json E (joinpath (Path data_dir) filename) w0) as [[v|e] w1] eqn:Hload.
  - rewrite (bind_ok _ _ _ _ _ Hinit).
    destruct (finish_init_fs (fresh (dom (heap w))) v w1) as [-> ->].
    unfold load_json in Hload. rewrite Hfs, Hfile in Hload.
    destruct n as [c|]; [| done].
    destruct (json_load E c (heap w0)) as [[v' h']|]; [| done].
    injection Hload as _ <-. done.
  - rewrite (bind_raise _ _ _ _ _ Hinit).
    unfold load_json in Hload. rewrite Hfs, Hfile in Hload.
    destruct n as [c|]; [| by injection Hload as _ <-].
    destruct (json_load E c (heap w0)) as [[v' h']|]; [done |].
    by injection Hload as _ <-.
Qed.

(** X4. After a construction that returned, a construction with the same
    arguments fetches nothing and changes no file, whatever the source would
    answer by then. *)
Theorem construct_again E E' data_dir filename w self :
  (__init__ E data_dir filename w).1 = Ok self →
  gets (__init__ E' data_dir filename (__init__ E data_dir filename w).2).2
  = gets (__init__ E data_dir filename w).2
  ∧ fs (__init__ E' data_dir filename (__init__ E data_dir filename w).2).2
    = fs (__init__ E data_dir filename w).2.
Proof.
  intros [c Hc]%init_ok_file. by apply (init_found_frame E' _ _ _ (File c)).
Qed.

(** The cache file after a write that the device cut short. *)
Lemma init_write_fails E data_dir filename c w st body k :
  Path filename = MkPath false [c] →
  fs w !! joinpath (Path data_dir) filename = None →
  forallb (λ p, negb (is_file (fs w) p)) (chain (Path data_dir)) = true →
  remote E source_url = Response st body →
  ¬ (400 ≤ st < 600)%Z →
  write_limit E = Some k → k < length body →
  fs (__init__ E data_dir filename w).2 !! joinpath (Path data_dir) filename
  = Some (File (take k body)).
Proof.
  intros Hname Hfile Hchain Hremote Hst Hlimit Hk.
  pose proof (mkdirs_result (chain (Path data_dir)) (fs w)) as Hmk.
  destruct (mkdirs (chain (Path data_dir)) (fs w)) as [f|e] eqn:Hf;
    [| destruct Hmk; congruence].
  destruct (mkdirs_plain (Path data_dir) filename c _ _ Hname Hf) as [Hfree Hparent].
  rewrite (init_missing E data_dir filename w Hfile).
  set (w0 := log_print _ (started data_dir filename w)).
  erewrite (bind_raise _ _ w0).
  2:{ apply bind_raise.
      rewrite (download_writes E _ _ (new_manager data_dir filename) st body f);
        [| apply started_instance | done | done | done | | done].
      - rewrite Hlimit. unfold write_fails. by rewrite bool_decide_eq_true_2.
      - cbn [filepath new_manager]. by rewrite Hfree, Hfile. }
  cbn [snd fs set_fs default]. apply lookup_insert_eq.
Qed.

(** X5. For a file name of one component, and a data directory and a cache
    path made of plain names (none of them [..]): after a construction whose
    write the device cut short after [k] bytes, a construction with the same
    arguments fetches nothing and changes no file: it reads the [k] bytes
    that were left, and when they do not load it does not return: it
    raises. *)
Theorem truncated_cache_is_reused E E' data_dir filename c w st body k :
  Path filename = MkPath false [c] →
  portable (Path data_dir) = true →
  portable (joinpath (Path data_dir) filename) = true →
  fs w !! joinpath (Path data_dir) filename = None →
  forallb (λ p, negb (is_file (fs w) p)) (chain (Path data_dir)) = true →
  remote E source_url = Response st body →
  ¬ (400 ≤ st < 600)%Z →
  write_limit E = Some k → k < length body →
  gets (__init__ E' data_dir filename (__init__ E data_dir filename w).2).2
  = gets (__init__ E data_dir filename w).2
  ∧ fs (__init__ E' data_dir filename (__init__ E data_dir filename w).2).2
    = fs (__init__ E data_dir filename w).2
  ∧ ((∀ h, json_load E' (take k body) h = None) →
     ∃ e, (__init__ E' data_dir filename (__init__ E data_dir filename w).2).1
          = Raise e).
Proof.
  intros Hname _ _ Hfile Hchain Hremote Hst Hlimit Hk.
  pose proof (init_write_fails E data_dir filename c w st body k
                Hname Hfile Hchain Hremote Hst Hlimit Hk) as Hcut.
  destruct (init_found_frame E' data_dir filename _ _ Hcut) as [Hgets Hfs].
  split; [done |]. split; [done |]. intros Hbad.
  rewrite (init_found E' data_dir filename _ _ Hcut). rewrite Hbad. by eexists.
Qed.

(** X1, for the manager of the scenario and a source that answers 200. *)
Lemma download_data_outcomes_sample :
  gets (download_data (env_of 200 (bytes "[]") None) 1%positive sample_world).2
  = (gets sample_world ++ [url sample_manager])%list
  ∧ heap (download_data (env_of 200 (bytes "[]") None) 1%positive sample_world).2
    = heap sample_world
  ∧ match (download_data (env_of 200 (bytes "[]") None) 1%positive sample_world).1 with
    | Raise e => ∃ cause, e = Exception download_failed cause
    | Ok _ => ∃ st body, remote (env_of 200 (bytes "[]") None) (url sample_manager)
                         = Response st body
                         ∧ ¬ (400 ≤ st < 600)%Z
                         ∧ fs (download_data (env_of 200 (bytes "[]") None) 1%positive
                                 sample_world).2 !! filepath sample_manager
                           = Some (File body)
    end.
Proof.
  apply (download_data_outcomes (env_of 200 (bytes "[]") None) 1%positive sample_world
           sample_manager).
  vm_compute. reflexivity.
Defined.



(** X4, for a cache file that holds an empty JSON list, and a source that
    would answer 500 to the second construction. *)
Lemma construct_again_sample :
  gets (__init__ (env_of 500 [] None) "Data" "WHOSIS_000001.json"
          (__init__ (env_of 200 (bytes "[]") None) "Data" "WHOSIS_000001.json"
             (cached_world (bytes "[]"))).2).2
  = gets (__init__ (env_of 200 (bytes "[]") None) "Data" "WHOSIS_000001.json"
            (cached_world (bytes "[]"))).2
  ∧ fs (__init__ (env_of 500 [] None) "Data" "WHOSIS_000001.json"
          (__init__ (env_of 200 (bytes "[]") None) "Data" "WHOSIS_000001.json"
             (cached_world (bytes "[]"))).2).2
    = fs (__init__ (env_of 200 (bytes "[]") None) "Data" "WHOSIS_000001.json"
            (cached_world (bytes "[]"))).2.
Proof.
  apply (construct_again (env_of 200 (bytes "[]") None) (env_of 500 [] None) "Data"
           "WHOSIS_000001.json" (cached_world (bytes "[]")) 1%positive).
  vm_compute. reflexivity.
Defined.

(** X5, for a device that takes three bytes of a body of nine. *)
Lemma truncated_cache_is_reused_sample :
  gets (__init__ (env_of 200 (bytes "[1, 2, 3]") None) "Data" "WHOSIS_000001.json"
          (__init__ (env_of 200 (bytes "[1, 2, 3]") (Some 3)) "Data" "WHOSIS_000001.json"
             empty_world).2).2
  = gets (__init__ (env_of 200 (bytes "[1, 2, 3]") (Some 3)) "Data" "WHOSIS_000001.json"
            empty_world).2
  ∧ fs (__init__ (env_of 200 (bytes "[1, 2, 3]") None) "Data" "WHOSIS_000001.json"
          (__init__ (env_of 200 (bytes "[1, 2, 3]") (Some 3)) "Data" "WHOSIS_000001.json"
             empty_world).2).2
    = fs (__init__ (env_of 200 (bytes "[1, 2, 3]") (Some 3)) "Data" "WHOSIS_000001.json"
            empty_world).2
  ∧ ((∀ h, json_load (env_of 200 (bytes "[1, 2, 3]") None) (take 3 (bytes "[1, 2, 3]")) h
           = None) →
     ∃ e, (__init__ (env_of 200 (bytes "[1, 2, 3]") None) "Data" "WHOSIS_000001.json"
             (__init__ (env_of 200 (bytes "[1, 2, 3]") (Some 3)) "Data"
                "WHOSIS_000001.json" empty_world).2).1 = Raise e).
Proof.
  apply (truncated_cache_is_reused (env_of 200 (bytes "[1, 2, 3]") (Some 3))
           (env_of 200 (bytes "[1, 2, 3]") None) "Data" "WHOSIS_000001.json"
           "WHOSIS_000001.json" empty_world 200 (bytes "[1, 2, 3]") 3);
    try (vm_compute; reflexivity).
  - lia.
  - vm_compute. lia.
Defined.

(** ** Reports *)

Lemma bind_print {B} s (f : unit → M B) w :
  (print s ≫= f) w = f tt (log_print s w).
Proof. done. Qed.

(** X9. On a loaded dataset of records, [get_filtered_data] returns the list
    [filter_data] returns, in the world [filter_data] leaves, and prints one
    line more: the number of records selected and the number of records of
    the dataset. *)
Theorem get_filtered_data_reports self s t d w lv items :
  dataset (heap w) self = Some (lv, items) →
  forallb (is_record (heap w)) items = true →
  ∃ l' w1,
    filter_data self s t d w = (Ok (VRef l'), w1)
    ∧ heap w1 !! l' = Some (OList (selected (heap w) s t d items))
    ∧ get_filtered_data self s t d w
      = (Ok (VRef l'),
         log_print ("Filtered " ++ pretty (length (selected (heap w) s t d items))
                    ++ " entries from " ++ pretty (length items) ++ " total entries.") w1).
Proof.
  intros Hdata Hrec.
  destruct (filter_data_records self s t d w lv items Hdata Hrec)
    as (l' & w1 & Hrun & (Hsub & _) & _ & Hl' & _).
  exists l', w1. split; [done |]. split; [done |].
  apply dataset_inv in Hdata as (ld & dd & Hself & Hld & Hv & Hlv).
  unfold get_filtered_data. rewrite (bind_ok _ _ _ _ _ Hrun).
  rewrite (bind_lift_ok _ _ w1 _ (self_data_weaken _ _ _ _ Hsub Hself)).
  rewrite (bind_lift_ok _ _ w1 (length items)).
  2:{ simpl. unfold deref. rewrite (lookup_weaken _ _ _ _ Hld Hsub), Hv.
      simpl. unfold deref. by rewrite (lookup_weaken _ _ _ _ Hlv Hsub). }
  rewrite (bind_lift_ok _ _ w1 (length (selected (heap w) s t d items))).
  2:{ simpl. unfold deref. by rewrite Hl'. }
  done.
Qed.

(** X9, on the scenario. *)
Lemma get_filtered_data_reports_sample :
  ∃ l' w1,
    filter_data 1%positive (Some "GUY") (Some "2001") (Some "SEX_BTSX") sample_world
      = (Ok (VRef l'), w1)
    ∧ heap w1 !! l'
      = Some (OList (selected (heap sample_world) (Some "GUY") (Some "2001")
                       (Some "SEX_BTSX") [VRef 4%positive; VRef 5%positive]))
    ∧ get_filtered_data 1%positive (Some "GUY") (Some "2001") (Some "SEX_BTSX") sample_world
      = (Ok (VRef l'),
         log_print ("Filtered "
                    ++ pretty (length (selected (heap sample_world) (Some "GUY") (Some "2001")
                                         (Some "SEX_BTSX") [VRef 4%positive; VRef 5%positive]))
                    ++ " entries from " ++ pretty (length [VRef 4%positive; VRef 5%positive])
                    ++ " total entries.") w1).
Proof.
  apply (get_filtered_data_reports 1%positive _ _ _ sample_world 3%positive);
    vm_compute; reflexivity.
Defined.

(** X10. For a manager that holds a dataset, [print_config] returns; it
    prints four lines, the data directory, the file path, the URL and the
    number of records of the dataset, and changes nothing else. *)
Theorem print_config_counts self w lv items m :
  dataset (heap w) self = Some (lv, items) →
  instance (heap w) self = Ok m →
  print_config self w
  = (Ok tt, MkWorld (heap w) (fs w) (gets w)
              (stdout w ++ config_lines m (length items))).
Proof.
  intros (ld & dd & Hself & Hld & Hv & Hlv)%dataset_inv Hm.
  unfold print_config. rewrite (bind_lift_ok _ _ w m Hm).
  rewrite !bind_print. cbv beta.
  set (w3 := log_print _ (log_print _ (log_print _ w))).
  assert (heap w3 = heap w) as Hheap by done.
  rewrite (bind_lift_ok _ _ w3 (VRef ld)) by (by rewrite Hheap).
  assert (dd ≠ ∅) as Hne by (intros ->; by rewrite lookup_empty in Hv).
  rewrite (bind_lift_ok _ _ w3 true).
  2:{ rewrite Hheap. simpl. unfold deref. rewrite Hld.
      by rewrite bool_decide_eq_false_2. }
  rewrite (bind_lift_ok _ _ w3 (length items)).
  2:{ rewrite Hheap. simpl. unfold deref. rewrite Hld, Hv.
      simpl. unfold deref. by rewrite Hlv. }
  unfold w3, print, log_print, config_lines. cbn [heap fs gets stdout].
  by rewrite <- !app_assoc.
Qed.

(** X10, on the scenario. *)
Lemma print_config_counts_sample :
  print_config 1%positive sample_world
  = (Ok tt, MkWorld (heap sample_world) (fs sample_world) (gets sample_world)
              (stdout sample_world
               ++ config_lines sample_manager (length [VRef 4%positive; VRef 5%positive]))).
Proof.
  apply (print_config_counts 1%positive sample_world 3%positive
           [VRef 4%positive; VRef 5%positive] sample_manager); vm_compute; reflexivity.
Defined.

(** X11. For a manager whose [_data] is [None], or a dict with no ['value']
    entry, [print_config] returns as well, and the number it prints is 0. *)
Theorem print_config_no_data self w top m :
  loaded_state (heap w) self = Some top →
  instance (heap w) self = Ok m →
  match top with
  | None => True
  | Some dd => dd !! "value" = None
  end →
  print_config self w
  = (Ok tt, MkWorld (heap w) (fs w) (gets w) (stdout w ++ config_lines m 0)).
Proof.
  unfold loaded_state. intros Htop Hm Hguard.
  unfold print_config. rewrite (bind_lift_ok _ _ w m Hm).
  rewrite !bind_print. cbv beta.
  set (w3 := log_print _ (log_print _ (log_print _ w))).
  assert (heap w3 = heap w) as Hheap by done.
  assert (print ("In-Memory Records: " ++ pretty 0%nat) w3
          = (Ok tt, MkWorld (heap w) (fs w) (gets w) (stdout w ++ config_lines m 0)))
    as Hlast.
  { unfold w3, print, log_print, config_lines. cbn [heap fs gets stdout].
    by rewrite <- !app_assoc. }
  destruct (self_data (heap w) self) as [[| | | | |ld]|] eqn:Hdata; try done.
  - rewrite (bind_lift_ok _ _ w3 VNone) by (by rewrite Hheap).
    by rewrite (bind_lift_ok _ _ w3 false).
  - destruct (heap w !! ld) as [[|dd|]|] eqn:Hld; try done.
    injection Htop as <-.
    rewrite (bind_lift_ok _ _ w3 (VRef ld)) by (by rewrite Hheap).
    destruct (decide (dd = ∅)) as [->|Hne].
    + rewrite (bind_lift_ok _ _ w3 false); [done |].
      rewrite Hheap. simpl. unfold deref. by rewrite Hld.
    + rewrite (bind_lift_ok _ _ w3 true).
      2:{ rewrite Hheap. simpl. unfold deref. rewrite Hld.
          by rewrite bool_decide_eq_false_2. }
      rewrite (bind_lift_ok _ _ w3 0%nat); [done |].
      rewrite Hheap. simpl. unfold deref. by rewrite Hld, Hguard.
Qed.

(** X11, for a manager whose [_data] is a dict with no ['value'] entry. *)
Lemma print_config_no_data_sample :
  print_config 1%positive (unloaded_world (VRef 2%positive))
  = (Ok tt,
     MkWorld (heap (unloaded_world (VRef 2%positive))) (fs (unloaded_world (VRef 2%positive)))
       (gets (unloaded_world (VRef 2%positive)))
       (stdout (unloaded_world (VRef 2%positive))
        ++ config_lines (MkManager (Path "Data") "WHOSIS_000001.json"
                           (joinpath (Path "Data") "WHOSIS_000001.json") source_url
                           (Some (VRef 2%positive))) 0)).
Proof.
  apply (print_config_no_data 1%positive (unloaded_world (VRef 2%positive))
           (Some (list_to_map [("error", VStr "not found")])));
    vm_compute; reflexivity.
Defined.

(** ** The list a query returns *)

(** A pass whose argument is given returns a list that was not in the
    store. *)
Lemma narrow_given_fresh h0 key arg w l items :
  h0 ⊆ heap w → heap w !! l = Some (OList items) →
  forallb (is_record h0) items = true → given arg = true →
  ∃ l' w', narrow key arg (VRef l) w = (Ok (VRef l'), w') ∧ heap w !! l' = None.
Proof.
  intros Hsub Hl Hrec Hg. unfold narrow. rewrite Hg. unfold comprehension.
  rewrite (bind_lift_ok _ _ w items) by (simpl; unfold deref; by rewrite Hl).
  rewrite (bind_lift_ok _ _ w _ (select_records h0 _ key _ items Hsub Hrec)).
  destruct (alloc_spec (OList (filter (λ e, matchb h0 key (default "" arg) e) items)) w)
    as (l' & Hal & Hfresh).
  rewrite (bind_ok _ _ _ _ _ Hal). eauto.
Qed.

(** X12. On a loaded dataset of records, when at least one argument is
    given, [filter_data] returns a list that was not in the store before: it
    is not the list of the dataset, which is still in the store with the
    same records. *)
Theorem filter_data_new_list self s t d w lv items :
  dataset (heap w) self = Some (lv, items) →
  forallb (is_record (heap w)) items = true →
  given s || given t || given d = true →
  ∃ l' w', filter_data self s t d w = (Ok (VRef l'), w')
    ∧ heap w !! l' = None
    ∧ l' ≠ lv
    ∧ heap w' !! lv = Some (OList items).
Proof.
  intros Hdata Hrec Hgiven.
  pose proof Hdata as (ld & dd & Hself & Hld & Hv & Hlv)%dataset_inv.
  assert (∀ l' w', filter_data self s t d w = (Ok (VRef l'), w') → heap w ⊆ heap w' →
            heap w !! l' = None →
            heap w !! l' = None ∧ l' ≠ lv ∧ heap w' !! lv = Some (OList items)) as Hfin.
  { intros l' w' _ Hsub Hnone. split; [done |].
    split; [intros ->; congruence | by apply (lookup_weaken (heap w))]. }
  rewrite (guard_passes self s t d w ld dd _ Hself Hld Hv) in *.
  destruct (narrow_records (heap w) "SpatialDim" s w lv items)
    as (l1 & w1 & E1 & X1 & _ & L1 & N1); [done.. |].
  destruct (narrow_records (heap w) "TimeDimensionValue" t w1 l1 _ (proj1 X1) L1)
    as (l2 & w2 & E2 & X2 & _ & L2 & N2); [by apply forallb_filter |].
  assert (heap w ⊆ heap w2) as Hsub2 by (etrans; [apply X1 | apply X2]).
  destruct (narrow_records (heap w) "Dim1" d w2 l2 _ Hsub2 L2)
    as (l3 & w3 & E3 & X3 & _ & L3 & N3); [by do 2 apply forallb_filter |].
  assert (heap w ⊆ heap w3) as Hsub3 by (etrans; [exact Hsub2 | apply X3]).
  rewrite (bind_ok _ _ _ _ _ E1), (bind_ok _ _ _ _ _ E2), (bind_ok _ _ _ _ _ E3) in *.
  exists l3, w3. split; [done |]. apply Hfin; [done | done |].
  destruct (given d) eqn:Hd.
  { destruct (narrow_given_fresh (heap w) "Dim1" d w2 l2 _ Hsub2 L2) as (l & w' & E & F);
      [by do 2 apply forallb_filter | done |].
    rewrite E3 in E. injection E as <- <-. by apply (lookup_weaken_None _ (heap w2)). }
  destruct (N3 eq_refl) as [-> ->].
  destruct (given t) eqn:Ht.
  { destruct (narrow_given_fresh (heap w) "TimeDimensionValue" t w1 l1 _ (proj1 X1) L1)
      as (l & w' & E & F); [by apply forallb_filter | done |].
    rewrite E2 in E. injection E as <- <-.
    apply (lookup_weaken_None _ (heap w1)); [done | apply X1]. }
  destruct (N2 eq_refl) as [-> ->].
  destruct (given s) eqn:Hs; [| done].
  destruct (narrow_given_fresh (heap w) "SpatialDim" s w lv items) as (l & w' & E & F);
    [done.. |].
  rewrite E1 in E. by injection E as <- <-.
Qed.

(** X12, on the scenario. *)
Lemma filter_data_new_list_sample :
  ∃ l' w', filter_data 1%positive None (Some "2001") None sample_world = (Ok (VRef l'), w')
    ∧ heap sample_world !! l' = None
    ∧ l' ≠ 3%positive
    ∧ heap w' !! 3%positive = Some (OList [VRef 4%positive; VRef 5%positive]).
Proof.
  apply (filter_data_new_list 1%positive _ _ _ sample_world 3%positive);
    vm_compute; reflexivity.
Defined.

(** ** Dropping a constraint *)

Lemma filter_sublist_impl {A} (P Q : A → Prop)
    `{∀ x, Decision (P x)} `{∀ x, Decision (Q x)} (l1 l2 : list A) :
  (∀ x, P x → Q x) → l1 `sublist_of` l2 → filter P l1 `sublist_of` filter Q l2.
Proof.
  intros HPQ. induction 1 as [|x l1 l2 Hsub IH|x l1 l2 Hsub IH].
  - done.
  - rewrite !filter_cons. destruct (decide (P x)) as [HP|HP].
    + rewrite decide_True by auto. by constructor.
    + destruct (decide (Q x)); [by constructor | done].
  - rewrite (filter_cons Q). destruct (decide (Q x)); [by constructor | done].
Qed.

Lemma pass_relaxes h key arg arg' e :
  relaxes arg' arg = true → pass h key arg e → pass h key arg' e.
Proof.
  unfold relaxes, pass. destruct (given arg') eqn:Hg'; simpl; [| done].
  intros ->%bool_decide_eq_true. by rewrite Hg'.
Qed.

(** X13. On a loaded dataset of records, a query that drops some of the
    arguments of another and keeps the others selects every record the other
    selects, in the same order: the result of the narrower query is a
    sub-sequence of the result of the wider one. *)
Theorem dropping_a_constraint_keeps_records self s t d s' t' d' w lv items :
  dataset (heap w) self = Some (lv, items) →
  forallb (is_record (heap w)) items = true →
  relaxes s' s = true → relaxes t' t = true → relaxes d' d = true →
  ∃ l w1 kept l' w1' kept',
    filter_data self s t d w = (Ok (VRef l), w1)
    ∧ heap w1 !! l = Some (OList kept)
    ∧ filter_data self s' t' d' w = (Ok (VRef l'), w1')
    ∧ heap w1' !! l' = Some (OList kept')
    ∧ kept `sublist_of` kept'.
Proof.
  intros Hdata Hrec Hs Ht Hd.
  destruct (filter_data_records self s t d w lv items Hdata Hrec)
    as (l & w1 & Hrun & _ & _ & Hl & _).
  destruct (filter_data_records self s' t' d' w lv items Hdata Hrec)
    as (l' & w1' & Hrun' & _ & _ & Hl' & _).
  exists l, w1, (selected (heap w) s t d items), l', w1', (selected (heap w) s' t' d' items).
  repeat (split; [done |]). unfold selected.
  apply filter_sublist_impl; [intros e; by apply pass_relaxes |].
  apply filter_sublist_impl; [intros e; by apply pass_relaxes |].
  apply filter_sublist_impl; [intros e; by apply pass_relaxes | done].
Qed.

(** X13, on the scenario: the country and the year against the year alone. *)
Lemma dropping_a_constraint_sample :
  ∃ l w1 kept l' w1' kept',
    filter_data 1%positive (Some "GUY") (Some "2001") None sample_world = (Ok (VRef l), w1)
    ∧ heap w1 !! l = Some (OList kept)
    ∧ filter_data 1%positive None (Some "2001") None sample_world = (Ok (VRef l'), w1')
    ∧ heap w1' !! l' = Some (OList kept')
    ∧ kept `sublist_of` kept'.
Proof.
  apply (dropping_a_constraint_keeps_records 1%positive _ _ _ _ _ _ sample_world 3%positive
           [VRef 4%positive; VRef 5%positive]);
    vm_compute; reflexivity.
Defined.

(** ** Elements that are not records *)

Lemma select_non_record h key s items :
  forallb (in_store h) items = true →
  existsb (λ e, negb (is_record h e)) items = true →
  select h key s items = Raise AttributeError.
Proof.
  induction items as [|e items IH]; simpl; [done |].
  intros [He Hitems]%andb_prop Hex.
  destruct e as [| | | | |l]; simpl; try done.
  unfold deref. simpl in He, Hex.
  destruct (h !! l) as [[|dd|]|] eqn:Hl; simpl in *; try done.
  by rewrite (IH Hitems Hex).
Qed.

(** X14. When the list of the dataset has an element that is not a dict (and
    no reference to nothing), [filter_data] with at least one argument given
    raises [AttributeError], and the world is as it was: no list was made. *)
Theorem filter_data_non_record self s t d w lv items :
  dataset (heap w) self = Some (lv, items) →
  forallb (in_store (heap w)) items = true →
  existsb (λ e, negb (is_record (heap w) e)) items = true →
  given s || given t || given d = true →
  filter_data self s t d w = (Raise AttributeError, w).
Proof.
  intros (ld & dd & Hself & Hld & Hv & Hlv)%dataset_inv Hin Hex Hgiven.
  rewrite (guard_passes self s t d w ld dd _ Hself Hld Hv).
  assert (∀ key arg, given arg = true →
            narrow key arg (VRef lv) w = (Raise AttributeError, w)) as Hfail.
  { intros key arg Hg. unfold narrow. rewrite Hg. unfold comprehension.
    rewrite (bind_lift_ok _ _ w items) by (simpl; unfold deref; by rewrite Hlv).
    by rewrite (bind_lift_raise _ _ w _ (select_non_record _ key _ items Hin Hex)). }
  assert (∀ key arg, given arg = false →
            narrow key arg (VRef lv) w = (Ok (VRef lv), w)) as Hskip.
  { intros key arg Hg. unfold narrow. by rewrite Hg. }
  destruct (given s) eqn:Hs.
  { by rewrite (bind_raise _ _ _ _ _ (Hfail "SpatialDim" s Hs)). }
  rewrite (bind_ok _ _ _ _ _ (Hskip "SpatialDim" s Hs)).
  destruct (given t) eqn:Ht.
  { by rewrite (bind_raise _ _ _ _ _ (Hfail "TimeDimensionValue" t Ht)). }
  rewrite (bind_ok _ _ _ _ _ (Hskip "TimeDimensionValue" t Ht)).
  destruct (given d) eqn:Hd; [| done].
  by rewrite (bind_raise _ _ _ _ _ (Hfail "Dim1" d Hd)).
Qed.

(** X14, for a dataset whose second element is a list. *)
Lemma filter_data_non_record_sample :
  filter_data 1%positive (Some "GUY") None None ragged_world
  = (Raise AttributeError, ragged_world).
Proof.
  apply (filter_data_non_record 1%positive _ _ _ ragged_world 3%positive
           [VRef 4%positive; VRef 5%positive]);
    vm_compute; reflexivity.
Defined.
